(** * svs/saml.py: the SAML service-provider side of the affiliation broker

    A shallow embedding of [SamlSp] and [InAcademiaSAMLBackend] together
    with the parts of the Python 2.7 standard library ([str] methods, the
    [urlparse] module) and of the collaborating libraries that the code
    calls, followed by the properties of the persona selection, binding
    selection, identifier derivation, response resolution and federation
    guard. *)

From Stdlib Require Import String Ascii List Arith Lia Bool.
From stdpp Require Import base option list strings gmap.

Local Open Scope string_scope.
Local Open Scope list_scope.

(** ** Python exceptions and results *)

(** The exception classes that can travel through the code.
    [AuthnFailure] is a subclass of [ServiceErrorException]; the two
    helpers of [svs.message_utils] end the transaction by raising. *)
Inductive exn : Type :=
| ServiceErrorException (msg : string)
| AuthnFailure (msg : string)
| IndexError
| KeyError (key : string)
| ValueError (msg : string)
| ConnectionError
| LibraryError (msg : string)
| ClientError (log_msg error_description : string)
| NegativeResponse (message idp_entity_id : string).

Inductive result (A : Type) : Type :=
| Ok (a : A)
| Raise (e : exn).
Arguments Ok {A} a.
Arguments Raise {A} e.

Definition rbind {A B} (r : result A) (k : A → result B) : result B :=
  match r with
  | Ok a => k a
  | Raise e => Raise e
  end.

(** [isinstance(e, ServiceErrorException)]. *)
Definition is_ServiceErrorException (e : exn) : bool :=
  match e with
  | ServiceErrorException _ | AuthnFailure _ => true
  | _ => false
  end.

Definition is_AuthnFailure (e : exn) : bool :=
  match e with
  | AuthnFailure _ => true
  | _ => false
  end.

Definition is_ConnectionError (e : exn) : bool :=
  match e with
  | ConnectionError => true
  | _ => false
  end.

(** ** Python [str] methods (byte strings) *)
Module Str.

(** [c in s] for a one-character [c]. *)
Fixpoint occurs (c : ascii) (s : string) : bool :=
  match s with
  | EmptyString => false
  | String d s' => if Ascii.eqb d c then true else occurs c s'
  end.

(** [s[:n]]. *)
Fixpoint take (n : nat) (s : string) : string :=
  match n, s with
  | S n', String c s' => String c (take n' s')
  | _, _ => EmptyString
  end.

(** [s[n:]]. *)
Fixpoint drop (n : nat) (s : string) : string :=
  match n, s with
  | S n', String _ s' => drop n' s'
  | _, _ => s
  end.

(** [s.find(c)], with [None] for [-1]. *)
Fixpoint find (c : ascii) (s : string) : option nat :=
  match s with
  | EmptyString => None
  | String d s' => if Ascii.eqb d c then Some 0 else S <$> find c s'
  end.

(** [s.find(c, start)]. *)
Definition find_from (c : ascii) (s : string) (start : nat) : option nat :=
  (λ i, start + i) <$> find c (drop start s).

(** [s.rfind(c)]. *)
Fixpoint rfind (c : ascii) (s : string) : option nat :=
  match s with
  | EmptyString => None
  | String d s' =>
      match rfind c s' with
      | Some i => Some (S i)
      | None => if Ascii.eqb d c then Some 0 else None
      end
  end.

(** [s.split(c, 1)] as a pair, for [s] in which [c] occurs. *)
Definition split1 (c : ascii) (s : string) : string * string :=
  match find c s with
  | Some i => (take i s, drop (S i) s)
  | None => (s, EmptyString)
  end.

(** [s.split(c)]. *)
Fixpoint split (c : ascii) (s : string) : list string :=
  match s with
  | EmptyString => [EmptyString]
  | String d s' =>
      if Ascii.eqb d c then EmptyString :: split c s'
      else match split c s' with
           | h :: t => String d h :: t
           | [] => [String d EmptyString]
           end
  end.

Definition lower_char (c : ascii) : ascii :=
  let n := nat_of_ascii c in
  if ((65 <=? n) && (n <=? 90))%nat then ascii_of_nat (n + 32) else c.

(** [s.lower()]. *)
Fixpoint lower (s : string) : string :=
  match s with
  | EmptyString => EmptyString
  | String c s' => String (lower_char c) (lower s')
  end.

(** [s.replace(a, b)] for one-character [a] and [b]. *)
Fixpoint replace_char (a b : ascii) (s : string) : string :=
  match s with
  | EmptyString => EmptyString
  | String c s' => String (if Ascii.eqb c a then b else c) (replace_char a b s')
  end.

(** [s.replace(a, '')] for a one-character [a]. *)
Fixpoint remove_char (a : ascii) (s : string) : string :=
  match s with
  | EmptyString => EmptyString
  | String c s' => if Ascii.eqb c a then remove_char a s' else String c (remove_char a s')
  end.

(** [all(p(c) for c in s)] and [any(p(c) for c in s)]. *)
Fixpoint all (p : ascii → bool) (s : string) : bool :=
  match s with
  | EmptyString => true
  | String c s' => p c && all p s'
  end.

Fixpoint any (p : ascii → bool) (s : string) : bool :=
  match s with
  | EmptyString => false
  | String c s' => p c || any p s'
  end.

(** Truthiness of a string: [bool(s)]. *)
Definition nonempty (s : string) : bool :=
  match s with
  | EmptyString => false
  | String _ _ => true
  end.

(** [''.join(l)]. *)
Definition join (l : list string) : string := fold_right String.append EmptyString l.

End Str.

(** [x in l] for a list of strings. *)
Definition str_in (x : string) (l : list string) : bool :=
  existsb (String.eqb x) l.

(** ** The [urlparse] module of Python 2.7 *)
Module urlparse.

Record SplitResult := mkSplitResult {
  s_scheme : string; s_netloc : string; s_path : string;
  s_query : string; s_fragment : string }.

Record ParseResult := mkParseResult {
  scheme : string; netloc : string; path : string;
  params : string; query : string; fragment : string }.

Definition uses_netloc : list string :=
  ["ftp"; "http"; "gopher"; "nntp"; "telnet"; "imap"; "wais"; "file"; "mms";
   "https"; "shttp"; "snews"; "prospero"; "rtsp"; "rtspu"; "rsync"; "";
   "svn"; "svn+ssh"; "sftp"; "nfs"; "git"; "git+ssh"].

Definition uses_params : list string :=
  ["ftp"; "hdl"; "prospero"; "http"; "imap"; "https"; "shttp"; "rtsp";
   "rtspu"; "sip"; "sips"; "mms"; ""; "sftp"; "tel"].

Definition scheme_chars : string :=
  "abcdefghijklmnopqrstuvwxyzABCDEFGHIJKLMNOPQRSTUVWXYZ0123456789+-.".

Definition digits : string := "0123456789".

(** [_splitnetloc(url, start)]: the earliest of the delimiters [/?#]
    from [start] on ends the network location. *)
Definition _splitnetloc (url : string) (start : nat) : string * string :=
  let delim :=
    fold_left (λ delim c,
                 match Str.find_from c url start with
                 | Some wdelim => Nat.min delim wdelim
                 | None => delim
                 end)
              ["/"; "?"; "#"]%char (String.length url) in
  (Str.drop start (Str.take delim url), Str.drop delim url).

(** The check that follows [_splitnetloc] in [urlsplit]. *)
Definition unmatched_bracket (netloc : string) : bool :=
  (Str.occurs "[" netloc && negb (Str.occurs "]" netloc))
  || (Str.occurs "]" netloc && negb (Str.occurs "[" netloc)).

(** The part of [urlsplit] that both of its branches run once the
    scheme is known: network location, fragment, query. *)
Definition split_after_scheme (scheme url : string) : result SplitResult :=
  rbind
    (if String.eqb (Str.take 2 url) "//" then
       let '(netloc, url) := _splitnetloc url 2 in
       if unmatched_bracket netloc then Raise (ValueError "Invalid IPv6 URL")
       else Ok (netloc, url)
     else Ok (EmptyString, url))
    (λ '(netloc, url),
       let '(url, fragment) :=
         if Str.occurs "#" url then Str.split1 "#" url else (url, EmptyString) in
       let '(url, query) :=
         if Str.occurs "?" url then Str.split1 "?" url else (url, EmptyString) in
       Ok (mkSplitResult scheme netloc url query fragment)).

(** [urlsplit(url)] with the default [scheme=''] and
    [allow_fragments=True]; the parse cache is a memo table and is left
    out. *)
Definition urlsplit (url : string) : result SplitResult :=
  match Str.find ":" url with
  | Some (S i' as i) =>
      if String.eqb (Str.take i url) "http" then
        split_after_scheme (Str.lower (Str.take i url)) (Str.drop (S i) url)
      else if Str.all (λ c, Str.occurs c scheme_chars) (Str.take i url) then
        let rest := Str.drop (S i) url in
        if negb (Str.nonempty rest) || Str.any (λ c, negb (Str.occurs c digits)) rest then
          split_after_scheme (Str.lower (Str.take i url)) rest
        else split_after_scheme EmptyString url
      else split_after_scheme EmptyString url
  | _ => split_after_scheme EmptyString url
  end.

(** [_splitparams(url)]. *)
Definition _splitparams (url : string) : string * string :=
  let cut (i : option nat) :=
    match i with
    | Some i => (Str.take i url, Str.drop (S i) url)
    | None => (Str.take (String.length url - 1) url, url)
    end in
  if Str.occurs "/" url then
    match Str.find_from ";" url (default 0 (Str.rfind "/" url)) with
    | Some i => cut (Some i)
    | None => (url, EmptyString)
    end
  else cut (Str.find ";" url).

Definition urlparse (url : string) : result ParseResult :=
  rbind (urlsplit url)
    (λ '(mkSplitResult scheme netloc url query fragment),
       let '(url, params) :=
         if str_in scheme uses_params && Str.occurs ";" url then _splitparams url
         else (url, EmptyString) in
       Ok (mkParseResult scheme netloc url params query fragment)).

Definition urlunsplit (data : SplitResult) : string :=
  let '(mkSplitResult scheme netloc url query fragment) := data in
  let url :=
    if Str.nonempty netloc
       || (Str.nonempty scheme && str_in scheme uses_netloc
           && negb (String.eqb (Str.take 2 url) "//")) then
      let url :=
        if Str.nonempty url && negb (String.eqb (Str.take 1 url) "/")
        then "/" +:+ url else url in
      "//" +:+ netloc +:+ url
    else url in
  let url := if Str.nonempty scheme then scheme +:+ ":" +:+ url else url in
  let url := if Str.nonempty query then url +:+ "?" +:+ query else url in
  let url := if Str.nonempty fragment then url +:+ "#" +:+ fragment else url in
  url.

Definition urlunparse (data : ParseResult) : string :=
  let '(mkParseResult scheme netloc url params query fragment) := data in
  let url := if Str.nonempty params then url +:+ ";" +:+ params else url in
  urlunsplit (mkSplitResult scheme netloc url query fragment).

Definition hexval (c : ascii) : option nat :=
  let n := nat_of_ascii c in
  if ((48 <=? n) && (n <=? 57))%nat then Some (n - 48)
  else if ((65 <=? n) && (n <=? 70))%nat then Some (n - 55)
  else if ((97 <=? n) && (n <=? 102))%nat then Some (n - 87)
  else None.

(** [unquote(s)]: every [%XY] with two hexadecimal digits becomes the
    byte it names; any other [%] stays. *)
Definition unquote (s : string) : string :=
  match Str.split "%" s with
  | [] => s
  | first :: bits =>
      first +:+
      Str.join
        (map (λ item,
                match item with
                | String a (String b rest) =>
                    match hexval a, hexval b with
                    | Some x, Some y => String (ascii_of_nat (16 * x + y)) rest
                    | _, _ => String "%" item
                    end
                | _ => String "%" item
                end) bits)
  end.

(** [parse_qsl(qs)] with [keep_blank_values=0] and [strict_parsing=0]. *)
Definition parse_qsl (qs : string) : list (string * string) :=
  let pairs := concat (map (Str.split ";") (Str.split "&" qs)) in
  concat
    (map (λ name_value,
            if negb (Str.nonempty name_value) then []
            else match Str.find "=" name_value with
                 | None => []
                 | Some _ =>
                     let '(n, v) := Str.split1 "=" name_value in
                     if Str.nonempty v then
                       [(unquote (Str.replace_char "+" " " n),
                         unquote (Str.replace_char "+" " " v))]
                     else []
                 end) pairs).

(** [parse_qs(qs)]: the values of a repeated name are collected in
    order. *)
Definition parse_qs (qs : string) : gmap string (list string) :=
  fold_left (λ (dict : gmap string (list string)) '(name, value),
               match dict !! name with
               | Some l => <[name := l ++ [value]]> dict
               | None => <[name := [value]]> dict
               end)
            (parse_qsl qs) ∅.

End urlparse.

(** ** Data model *)

(** Constants of [saml2]. *)
Definition BINDING_HTTP_REDIRECT : string :=
  "urn:oasis:names:tc:SAML:2.0:bindings:HTTP-Redirect".
Definition BINDING_HTTP_POST : string :=
  "urn:oasis:names:tc:SAML:2.0:bindings:HTTP-POST".
Definition NAMEID_FORMAT_ENTITY : string :=
  "urn:oasis:names:tc:SAML:2.0:nameid-format:entity".
Definition NAMEID_FORMAT_PERSISTENT : string :=
  "urn:oasis:names:tc:SAML:2.0:nameid-format:persistent".

(** Modelled from the spec: the two scope tokens that [svs.filter]
    exports as [PERSISTENT_NAMEID] and [TRANSIENT_NAMEID]; the module is
    not part of the sources, the spec names the tokens [persistent] and
    [transient]. *)
Definition PERSISTENT_NAMEID : string := "persistent".
Definition TRANSIENT_NAMEID : string := "transient".

(** [saml2.config.SPConfig] after [load]: what the code reads from it,
    for a configuration in which the endpoints and the name id formats
    are set (a dictionary and a list). *)
Record SPConfig := mkSPConfig {
  entityid : string;
  endpoints : gmap string (list (string * string));
  name_id_format : list string }.

Record NameIDPolicy := mkNameIDPolicy {
  policy_format : string;
  allow_create : string }.

Record Issuer := mkIssuer {
  issuer_text : string;
  issuer_format : string }.

(** The [saml2.saml.NameID] of a subject that has one, with its format
    and its text. *)
Record NameID := mkNameID {
  nameid_format : string;
  nameid_text : string }.

(** The keyword arguments handed to [AuthnRequest(...)]; the entries of
    the [arg] dictionary that the code sets only under a condition are
    optional. *)
Record AuthnRequest := mkAuthnRequest {
  id : string;
  version : string;
  issue_instant : string;
  issuer : Issuer;
  name_id_policy : NameIDPolicy;
  force_authn : string;
  destination : string;
  assertion_consumer_service_url : option string;
  protocol_binding : option string;
  assertion_consumer_service_index : option string }.

(** The attribute bag [ava]: attribute name to its values. *)
Abbreviation Identity := (gmap string (list string)).

(** What [parse_authn_request_response] hands back, as far as the code
    reads it. *)
Record AuthnResponse := mkAuthnResponse {
  subject_name_id : NameID;
  ava : Identity;
  authn_statement : list string;   (* the [authn_instant] of each statement *)
  assertion_issuer_text : string }.

(** The result of [mds.service(entity_id, typ, service)]: [None], or the
    services by binding ([dict] of binding to a list of [dict]s; the
    empty list that the metadata store returns for an entity without
    services has no key, as the empty dictionary). *)
Abbreviation Destinations := (gmap string (list (gmap string string))).

(** A metadata instance, seen through its [service] method. *)
Definition Metadata : Type :=
  string → string → string → result (option Destinations).

(** The [ht_args] of [apply_binding]. *)
Record HtArgs := mkHtArgs {
  headers : list (string * string);
  data : list string }.

(** [oic.utils.http_util.Response] and its subclass [SeeOther]. *)
Inductive Response : Type :=
| SeeOther (location : string)
| Response200 (message : string) (response_headers : list (string * string)).

(** The transaction session: the entries the code reads. *)
Record TransactionSession := mkTransactionSession {
  ts_scope : list string;
  ts_client_id : string }.

(** ** Effects: the world the handlers run in *)

(** The calls that leave the process or build a protocol message, in the
    order the code makes them. *)
Inductive event : Type :=
| EvLogInternal (msg : string) (transaction_id : option string)
| EvLogTransactionIdp (transaction_id client_id idp_entity_id : string)
| EvMetadataService (entity_id : string)
| EvAuthnRequest (request : AuthnRequest)
| EvApplyBinding (binding msg_str destination relay_state : string).

(** The event log (newest first), the outcomes of the random source
    with the number of draws made so far, and the clock. *)
Record world := mkWorld {
  w_events : list event;
  w_random : nat → nat;
  w_cursor : nat;
  w_clock : nat }.

Definition M (A : Type) : Type := world → result A * world.

Global Instance M_ret : MRet M := λ A a w, (Ok a, w).
Global Instance M_bind : MBind M := λ A B k m w,
  match m w with
  | (Ok a, w') => k a w'
  | (Raise e, w') => (Raise e, w')
  end.

Definition raise {A} (e : exn) : M A := λ w, (Raise e, w).

Definition lift {A} (r : result A) : M A := λ w, (r, w).

(** [try: body except Exception as e: handler(e)]; a handler re-raises
    what its [except] clauses do not name. *)
Definition try_except {A} (body : M A) (handler : exn → M A) : M A := λ w,
  match body w with
  | (Ok a, w') => (Ok a, w')
  | (Raise e, w') => handler e w'
  end.

Definition emit (e : event) : M unit := λ w,
  (Ok tt, mkWorld (e :: w_events w) (w_random w) (w_cursor w) (w_clock w)).

Definition clock : M nat := λ w, (Ok (w_clock w), w).

(** [log_internal(logger, msg, environ, transaction_id)]. *)
Definition log_internal (msg : string) (transaction_id : option string) : M unit :=
  emit (EvLogInternal msg transaction_id).

(** [log_transaction_idp(logger, environ, transaction_id, client_id, idp)]. *)
Definition log_transaction_idp (transaction_id client_id idp_entity_id : string) : M unit :=
  emit (EvLogTransactionIdp transaction_id client_id idp_entity_id).

(** *** [random.choice] and [oic.oauth2.rndstr] *)

(** [string.ascii_letters + string.digits]. *)
Definition basech : string :=
  "abcdefghijklmnopqrstuvwxyzABCDEFGHIJKLMNOPQRSTUVWXYZ0123456789".

Fixpoint nth_char (n : nat) (s : string) : ascii :=
  match s, n with
  | EmptyString, _ => zero
  | String c _, 0 => c
  | String _ s', S n' => nth_char n' s'
  end.

(** [random.choice(seq)]: the next outcome of the random source picks
    the position. *)
Definition random_choice (seq : string) : M ascii := λ w,
  (Ok (nth_char (w_random w (w_cursor w) mod String.length seq) seq),
   mkWorld (w_events w) (w_random w) (S (w_cursor w)) (w_clock w)).

(** [rndstr(size)]: [size] characters of [basech], each chosen by
    [random.choice]. *)
Fixpoint rndstr (size : nat) : M string :=
  match size with
  | 0 => mret EmptyString
  | S n => c ← random_choice basech; s ← rndstr n; mret (String c s)
  end.

(** *** Collaborators *)

(** The libraries and modules the code calls and that are not part of
    the sources, by interface. *)
Class Collaborators := {
  (** [saml2.s_utils.sid()] and [saml2.time_util.instant()], as
      functions of the clock reading. *)
  sid : nat → string;
  instant : nat → string;
  (** [str(request)] and [str(name_id)]. *)
  str_AuthnRequest : AuthnRequest → string;
  str_NameID : NameID → string;
  (** [Base.apply_binding(binding, msg_str, destination, relay_state)]. *)
  apply_binding : string → string → string → string → HtArgs;
  (** [Base.parse_authn_request_response(xmlstr, binding)]: the parsed
      and verified response, or the message of the exception the
      library raises. *)
  parse_authn_request_response : SPConfig → string → string → string + AuthnResponse;
  (** [MetaDataMDX(..., mdx_url, ...)]. *)
  MetaDataMDX : string → Metadata;
  (** [svs.sp_metadata.load_sp_config(base_url)], in iteration order. *)
  load_sp_config : string → list (string * SPConfig);
  (** Modelled from the spec: [svs.filter.get_affiliation_function],
      which is not part of the sources; a pure function, keyed by scope,
      from the attribute bag to a boolean affiliation result. *)
  get_affiliation_function : list string → Identity → bool;
  (** [svs.cherrypy_util.response_to_cherrypy(response)]. *)
  response_to_cherrypy : Response → result string }.

(** Modelled from the spec: [svs.message_utils.abort_with_client_error],
    which is not part of the sources; a terminal abort of the
    transaction, reported as an error. *)
Definition abort_with_client_error {A} (transaction_id : string)
    (transaction_session : TransactionSession)
    (log_msg error_description : string) : M A :=
  raise (ClientError log_msg error_description).

(** Modelled from the spec:
    [svs.message_utils.negative_transaction_response], which is not part
    of the sources; a terminal negative (not erroneous) result that
    carries the entity id of the asserting IdP. *)
Definition negative_transaction_response {A} (transaction_id : string)
    (transaction_session : TransactionSession)
    (message idp_entity_id : string) : M A :=
  raise (NegativeResponse message idp_entity_id).

Definition newline : ascii := ascii_of_nat 10.

(** The discovery-service helpers of [saml2.client_base.Base], by
    interface. *)
Class DiscoveryCollaborators := {
  (** [Base.create_discovery_service_request(url, entity_id, return=...)]. *)
  create_discovery_service_request : string → string → string → string;
  (** [Base.parse_discovery_service_response(query=...)]: the entity id
      of the chosen IdP, or the empty string. *)
  parse_discovery_service_response : string → string }.

(** ** [class SamlSp] *)
Module SamlSp.

(** [saml2.client_base.Base(conf)] with the two attributes the
    constructor sets. *)
Record Base := mkBase {
  config : SPConfig;
  allow_unsolicited : bool }.

Record t := mk {
  idp_query_param : string;
  conf : SPConfig;
  disco_srv : string;
  force_authn : bool;
  sign_func : option (AuthnRequest → string);
  response_binding : string;
  response_url : string;
  nameid_policy : NameIDPolicy;
  sp : Base;
  issuer : Issuer }.

(** [SamlSp.__init__(conf, disco_srv, force_authn, sign_func)]. *)
Definition __init__ (conf : SPConfig) (disco_srv : string)
    (force_authn : bool) (sign_func : option (AuthnRequest → string)) : result t :=
  match endpoints conf !! "assertion_consumer_service" with
  | None => Raise (KeyError "assertion_consumer_service")
  | Some acs =>
      match acs with
      | [] => Raise IndexError
      | (acs_url, acs_binding) :: _ =>
          match name_id_format conf with
          | [] => Raise IndexError
          | format :: _ =>
              Ok (mk "IdpQuery" conf disco_srv force_authn sign_func
                     acs_binding acs_url
                     (mkNameIDPolicy format "false")
                     (mkBase conf true)
                     (mkIssuer (entityid conf) NAMEID_FORMAT_ENTITY))
          end
      end
  end.

(** The binding choice of [construct_authn_request]: HTTP-POST before
    HTTP-Redirect. *)
Definition choose_binding (destinations : Destinations) : option string :=
  if decide (is_Some (destinations !! BINDING_HTTP_POST)) then Some BINDING_HTTP_POST
  else if decide (is_Some (destinations !! BINDING_HTTP_REDIRECT)) then Some BINDING_HTTP_REDIRECT
  else None.

(** [destinations[binding][0]["location"]]. *)
Definition first_location (destinations : Destinations) (binding : string) : result string :=
  match destinations !! binding with
  | None => Raise (KeyError binding)
  | Some [] => Raise IndexError
  | Some (service :: _) =>
      match service !! "location" with
      | None => Raise (KeyError "location")
      | Some location => Ok location
      end
  end.

Section methods.
Context {env : Collaborators}.

Definition construct_authn_request (self : t) (idp_entity_id : string)
    (mds : Metadata) (nameid_policy : NameIDPolicy)
    (assertion_consumer_service_url assertion_consumer_service_index : string)
    : M (AuthnRequest * string) :=
  _ ← emit (EvMetadataService idp_entity_id);
  destinations ← lift (mds idp_entity_id "idpsso_descriptor" "single_sign_on_service");
  match destinations with
  | None =>
      raise (ServiceErrorException ("IdP '" +:+ idp_entity_id +:+ "' not known in MDX"))
  | Some destinations =>
      match choose_binding destinations with
      | None =>
          raise (ServiceErrorException
                   "IdP does not support http-post or http-redirect binding")
      | Some binding =>
          location ← lift (first_location destinations binding);
          let with_url := Str.nonempty assertion_consumer_service_url in
          let with_index := Str.nonempty assertion_consumer_service_index in
          let _force := if force_authn self then "true" else "false" in
          now ← clock;
          let request :=
            mkAuthnRequest (sid now) "2.0" (instant now) (issuer self)
              nameid_policy _force location
              (if with_url then Some assertion_consumer_service_url else None)
              (if with_url then Some (response_binding self) else None)
              (if with_index then Some assertion_consumer_service_index else None) in
          _ ← emit (EvAuthnRequest request);
          mret (request, binding)
      end
  end.

(** [bool(SAMLResponse)] for a response that may be [None]. *)
Definition truthy (SAMLResponse : option string) : bool :=
  match SAMLResponse with
  | None => false
  | Some s => Str.nonempty s
  end.

Definition parse_auth_response (self : t) (SAMLResponse : option string)
    (binding : string) : M (NameID * Identity * string * string) :=
  match SAMLResponse with
  | Some xmlstr =>
      if Str.nonempty xmlstr then
        match parse_authn_request_response (config (sp self)) xmlstr binding with
        | inl msg => raise (LibraryError msg)
        | inr _response =>
            match authn_statement _response with
            | [] => raise IndexError
            | authn_instant :: _ =>
                mret (subject_name_id _response, ava _response,
                      authn_instant, assertion_issuer_text _response)
            end
        end
      else
        _ ← log_internal
              "Auhtentication response from IdP is missing (maybe authn failure." None;
        raise (AuthnFailure "You are not authorized!")
  | None =>
      _ ← log_internal
            "Auhtentication response from IdP is missing (maybe authn failure." None;
      raise (AuthnFailure "You are not authorized!")
  end.

(** The [for ... else] over [ht_args["headers"]]. *)
Fixpoint location_header (headers : list (string * string)) : option string :=
  match headers with
  | [] => None
  | (param, value) :: rest =>
      if String.eqb param "Location" then Some value else location_header rest
  end.

Definition redirect_to_auth (self : t) (metadata : Metadata)
    (entity_id relay_state : string) : M Response :=
  '(request, binding) ←
    construct_authn_request self entity_id metadata (nameid_policy self)
      (response_url self) "";
  _ ← log_internal
        ("saml_authn_request " +:+ Str.remove_char newline (str_AuthnRequest request))
        (Some relay_state);
  let msg_str :=
    match sign_func self with
    | Some sign => sign request
    | None => str_AuthnRequest request
    end in
  _ ← emit (EvApplyBinding binding msg_str (destination request) relay_state);
  let ht_args := apply_binding binding msg_str (destination request) relay_state in
  if String.eqb binding BINDING_HTTP_REDIRECT then
    match location_header (headers ht_args) with
    | Some value => mret (SeeOther value)
    | None => raise (ServiceErrorException "Parameter error")
    end
  else mret (Response200 (Str.join (data ht_args)) (headers ht_args)).

Context {discovery : DiscoveryCollaborators}.

Definition parse_disco_response (self : t) (query_part : string) : string :=
  parse_discovery_service_response query_part.

Definition disco_query (self : t) (state : string) : M string :=
  let eid := entityid (config (sp self)) in
  match endpoints (conf self) !! "discovery_response" with
  | None => raise (KeyError "discovery_response")
  | Some dr =>
      match dr with
      | [] => raise IndexError
      | (ret, _) :: _ =>
          let ret := ret +:+ "?state=" +:+ state in
          let loc := create_discovery_service_request (disco_srv self) eid ret in
          _ ← log_internal ("Discovery service URL: " +:+ disco_srv self) (Some state);
          mret loc
      end
  end.

End methods.
End SamlSp.

(** How a handler that never returns ends: with the redirect of
    [cherrypy.HTTPRedirect], or with another exception. *)
Inductive raised : Type :=
| HTTPRedirect (location : string) (status : nat)
| Raised (e : exn).

(** ** [class InAcademiaSAMLBackend] *)
Module InAcademiaSAMLBackend.

Record t := mk {
  metadata : Metadata;
  SP : gmap string SamlSp.t }.

Section methods.
Context {env : Collaborators}.

(** The loop of [__init__] over [config.iteritems()]. *)
Fixpoint load_service_providers (config : list (string * SPConfig))
    (disco_url : string) (SP : gmap string SamlSp.t) : result (gmap string SamlSp.t) :=
  match config with
  | [] => Ok SP
  | (sp_key, conf) :: rest =>
      rbind (SamlSp.__init__ conf disco_url true None)
            (λ sp, load_service_providers rest disco_url (<[sp_key := sp]> SP))
  end.

(** [InAcademiaSAMLBackend.__init__(base_url, mdx_url, disco_url)]; the
    library calls that prepare the metadata service and each
    configuration ([ac_factory], [HTTPBase], [MetaDataMDX],
    [sigver.get_xmlsec_binary], [SPConfig.load]) are taken as having
    returned: [MetaDataMDX] and [load_sp_config] stand for their
    results. *)
Definition __init__ (base_url mdx_url disco_url : string) : result t :=
  let metadata := MetaDataMDX mdx_url in
  let config := load_sp_config base_url in
  rbind (load_service_providers config disco_url ∅)
        (λ SP, Ok (mk metadata SP)).

Definition _choose_service_provider (self : t) (scope : list string) : result SamlSp.t :=
  let sp_key :=
    if str_in PERSISTENT_NAMEID scope then PERSISTENT_NAMEID else TRANSIENT_NAMEID in
  match SP self !! sp_key with
  | Some sp => Ok sp
  | None => Raise (KeyError sp_key)
  end.

Definition _is_in_edugain (entity_id : string) : result bool :=
  rbind (urlparse.urlparse entity_id)
    (λ parsed,
       let pqs := urlparse.parse_qs (urlparse.query parsed) in
       Ok (str_in "true" (default ["true"] (pqs !! "inedugain")))).

Definition _parse_idp_entity_id (entity_id : string) : result string :=
  rbind (urlparse.urlparse entity_id)
    (λ parsed,
       Ok (urlparse.urlunparse
             (urlparse.mkParseResult (urlparse.scheme parsed) (urlparse.netloc parsed)
                (urlparse.path parsed) (urlparse.params parsed) "" ""))).

Definition get_name_id (name_id_from_idp : NameID) (identity : Identity)
    : result (option string) :=
  if String.eqb (nameid_format name_id_from_idp) NAMEID_FORMAT_PERSISTENT then
    Ok (Some (nameid_text name_id_from_idp))
  else
    (fix loop (keys : list string) : result (option string) :=
       match keys with
       | [] => Ok None
       | key :: keys' =>
           match identity !! key with
           | Some (value :: _) => Ok (Some value)
           | Some [] => Raise IndexError
           | None => loop keys'
           end
       end) ["eduPersonTargetedID"; "eduPersonPrincipalName"].

Definition disco (self : t) (entity_id transaction_id : string)
    (transaction_session : TransactionSession) : M string :=
  sp ← lift (_choose_service_provider self (ts_scope transaction_session));
  idp_entity_id ← lift (_parse_idp_entity_id entity_id);
  in_edugain ← lift (_is_in_edugain entity_id);
  _ ← (if negb in_edugain then
         abort_with_client_error transaction_id transaction_session
           ("Non-edugain IdP '" +:+ idp_entity_id +:+ "' returned from discovery server") ""
       else mret tt);
  _ ← log_transaction_idp transaction_id (ts_client_id transaction_session) idp_entity_id;
  try_except
    (response ← SamlSp.redirect_to_auth sp (metadata self) idp_entity_id transaction_id;
     lift (response_to_cherrypy response))
    (λ e,
       if is_ServiceErrorException e then
         abort_with_client_error transaction_id transaction_session
           "Could not create SAML authentication request."
           "Validation could not be completed."
       else if is_ConnectionError e then
         abort_with_client_error transaction_id transaction_session
           "Could not contact SAML MDQ."
           "Validation could not be completed."
       else raise e).

Definition acs (self : t) (SAMLResponse : option string)
    (binding transaction_id : string) (transaction_session : TransactionSession)
    : M (string * bool * Identity * string * string) :=
  let scope := ts_scope transaction_session in
  sp ← lift (_choose_service_provider self scope);
  '(name_id, identity, auth_time, idp_entity_id) ←
    try_except
      (parsed ← SamlSp.parse_auth_response sp SAMLResponse binding;
       _ ← log_internal
             ("saml_response name_id="
                +:+ Str.remove_char newline (str_NameID (parsed.1.1.1)))
             (Some transaction_id);
       mret parsed)
      (λ e,
         if is_AuthnFailure e then
           abort_with_client_error transaction_id transaction_session
             "User not authenticated at IdP." ""
         else
           abort_with_client_error transaction_id transaction_session
             "Could not parse Authentication Response from IdP." "");
  let get_affiliation := get_affiliation_function scope in
  let affiliation := get_affiliation identity in
  _ ← (if negb affiliation then
         negative_transaction_response transaction_id transaction_session
           "The user does not have the correct affiliation." idp_entity_id
       else mret tt);
  _user_id ←
    (if str_in PERSISTENT_NAMEID scope then
       _user_id ← lift (get_name_id name_id identity);
       match _user_id with
       | None =>
           negative_transaction_response transaction_id transaction_session
             "The users identity could not be provided." idp_entity_id
       | Some _user_id => mret _user_id
       end
     else
       rndstr 256);
  mret (_user_id, affiliation, identity, auth_time, idp_entity_id).

Context {discovery : DiscoveryCollaborators}.

(** [redirect_to_auth(state, scope)]: it ends in [raise], always. *)
Definition redirect_to_auth (self : t) (state : string) (scope : list string)
    : world → raised * world := λ w,
  match _choose_service_provider self scope with
  | Raise e => (Raised e, w)
  | Ok sp =>
      match SamlSp.disco_query sp state w with
      | (Ok location, w') => (HTTPRedirect location 303, w')
      | (Raise e, w') => (Raised e, w')
      end
  end.

End methods.
End InAcademiaSAMLBackend.

(** ** The token of [rndstr] as a function of the random source *)

(** The characters that [size] successive draws from position [cursor]
    on select in [basech]. *)
Fixpoint token_of (random : nat → nat) (cursor size : nat) : string :=
  match size with
  | 0 => EmptyString
  | S n =>
      String (nth_char (random cursor mod String.length basech) basech)
             (token_of random (S cursor) n)
  end.

Fixpoint repeat_char (c : ascii) (n : nat) : string :=
  match n with
  | 0 => EmptyString
  | S n' => String c (repeat_char c n')
  end.

(** ** A concrete deployment, for running the handlers *)
Module Demo.

Definition idp : string := "https://idp.example/sso".

Definition sso_services : Destinations :=
  <[BINDING_HTTP_POST := [ {[ "location" := "https://idp.example/sso/post" ]} ]]>
    {[ BINDING_HTTP_REDIRECT := [ {[ "location" := "https://idp.example/sso/redirect" ]} ] ]}.

Definition mdx : Metadata := λ entity_id typ service,
  if String.eqb entity_id idp then Ok (Some sso_services) else Ok None.

Definition sp_conf (key format : string) : SPConfig :=
  mkSPConfig ("https://broker.example/sp/" +:+ key)
    (<["assertion_consumer_service" :=
         [("https://broker.example/acs/post", BINDING_HTTP_POST)]]>
       {[ "discovery_response" := [("https://broker.example/disco", "")] ]})
    [format].

Definition student : Identity :=
  <["eduPersonAffiliation" := ["student"]]>
    {[ "eduPersonTargetedID" := ["eptid-1"] ]}.

Definition visitor : Identity := {[ "eduPersonAffiliation" := ["affiliate"] ]}.

(** An identity whose [eduPersonTargetedID] was asserted without a
    value. *)
Definition unvalued : Identity :=
  <["eduPersonTargetedID" := []]>
    {[ "eduPersonPrincipalName" := ["alice@uni.example"] ]}.

Definition transient_format : string :=
  "urn:oasis:names:tc:SAML:2.0:nameid-format:transient".

(** A stand-in for the SAML library's parser: three well-formed
    responses, everything else is rejected. *)
Definition parse (conf : SPConfig) (xmlstr binding : string) : string + AuthnResponse :=
  if String.eqb xmlstr "<persistent/>" then
    inr (mkAuthnResponse (mkNameID NAMEID_FORMAT_PERSISTENT "abc123") student
           ["2015-01-01T00:00:00Z"] idp)
  else if String.eqb xmlstr "<transient/>" then
    inr (mkAuthnResponse (mkNameID transient_format (repeat_char "a" 256)) student
           ["2015-01-01T00:00:00Z"] idp)
  else if String.eqb xmlstr "<visitor/>" then
    inr (mkAuthnResponse (mkNameID transient_format "n-1") visitor
           ["2015-01-01T00:00:00Z"] idp)
  else inl "not a SAML response".

Definition collaborators : Collaborators := {|
  sid := λ now, "id-" +:+ repeat_char "0" now;
  instant := λ now, "t" +:+ repeat_char "0" now;
  str_AuthnRequest := λ request, "<AuthnRequest ID=" +:+ id request +:+ "/>";
  str_NameID := λ name_id, "<NameID>" +:+ nameid_text name_id +:+ "</NameID>";
  apply_binding := λ binding msg_str destination relay_state,
    mkHtArgs [("Location", destination +:+ "?RelayState=" +:+ relay_state)] [msg_str];
  parse_authn_request_response := parse;
  MetaDataMDX := λ mdx_url, mdx;
  load_sp_config := λ base_url,
    [(PERSISTENT_NAMEID, sp_conf PERSISTENT_NAMEID NAMEID_FORMAT_PERSISTENT);
     (TRANSIENT_NAMEID, sp_conf TRANSIENT_NAMEID transient_format)];
  get_affiliation_function := λ scope identity,
    match identity !! "eduPersonAffiliation" with
    | Some values => str_in "student" values
    | None => false
    end;
  response_to_cherrypy := λ response,
    match response with
    | SeeOther location => Ok location
    | Response200 message _ => Ok message
    end |}.

Definition persistent_sp : SamlSp.t :=
  SamlSp.mk "IdpQuery" (sp_conf PERSISTENT_NAMEID NAMEID_FORMAT_PERSISTENT)
    "https://disco.example" true None
    BINDING_HTTP_POST "https://broker.example/acs/post"
    (mkNameIDPolicy NAMEID_FORMAT_PERSISTENT "false")
    (SamlSp.mkBase (sp_conf PERSISTENT_NAMEID NAMEID_FORMAT_PERSISTENT) true)
    (mkIssuer "https://broker.example/sp/persistent" NAMEID_FORMAT_ENTITY).

Definition transient_sp : SamlSp.t :=
  SamlSp.mk "IdpQuery" (sp_conf TRANSIENT_NAMEID transient_format)
    "https://disco.example" true None
    BINDING_HTTP_POST "https://broker.example/acs/post"
    (mkNameIDPolicy transient_format "false")
    (SamlSp.mkBase (sp_conf TRANSIENT_NAMEID transient_format) true)
    (mkIssuer "https://broker.example/sp/transient" NAMEID_FORMAT_ENTITY).

Definition backend : InAcademiaSAMLBackend.t :=
  InAcademiaSAMLBackend.mk mdx
    (<[PERSISTENT_NAMEID := persistent_sp]> {[ TRANSIENT_NAMEID := transient_sp ]}).

Definition session (scope : list string) : TransactionSession :=
  mkTransactionSession scope "client-1".

(** A world whose random source always yields [draw]. *)
Definition world0 (draw : nat) : world := mkWorld [] (λ _, draw) 0 0.

Definition discovery : DiscoveryCollaborators := {|
  create_discovery_service_request := λ url entity_id return_url,
    url +:+ "?entityID=" +:+ entity_id +:+ "&return=" +:+ return_url;
  parse_discovery_service_response := λ query, Str.drop 9 query |}.

End Demo.

(** ** Notions for the statements *)

(** [free c s]: the character [c] is not in [s]. *)
Definition free (c : ascii) (s : string) : Prop := Str.occurs c s = false.

(** The two characters that open a query and a fragment. *)
Definition separator (c : ascii) : Prop := c = "?"%char ∨ c = "#"%char.

(** The world after one more logged event. *)
Definition logged (e : event) (w : world) : world :=
  mkWorld (e :: w_events w) (w_random w) (w_cursor w) (w_clock w).

Definition missing_response_event : event :=
  EvLogInternal "Auhtentication response from IdP is missing (maybe authn failure." None.



(** Cutting at the first [c]: what [url, rest = url.split(c, 1)] under
    [if c in url] leaves in [url]. *)
Definition before (c : ascii) (s : string) : string :=
  if Str.occurs c s then (Str.split1 c s).1 else s.

(** What may follow the network location: nothing, a path, a query or
    a fragment. *)
Definition ends_netloc (t : string) : Prop :=
  t = EmptyString ∨ ∃ c t', t = String c t' ∧ (c = "/" ∨ c = "?" ∨ c = "#")%char.

(** What may follow the path: nothing, a query or a fragment. *)
Definition ends_path (t : string) : Prop :=
  t = EmptyString ∨ ∃ c t', t = String c t' ∧ (c = "?" ∨ c = "#")%char.


(** The [except] clauses of [disco]: what becomes of an exception that
    is raised while the request is built and sent. *)
Definition disco_except (e : exn) : exn :=
  if is_ServiceErrorException e then
    ClientError "Could not create SAML authentication request."
      "Validation could not be completed."
  else if is_ConnectionError e then
    ClientError "Could not contact SAML MDQ." "Validation could not be completed."
  else e.

(** * Properties *)

(** ** Running the handlers on the concrete deployment *)

Example urlparse_demo :
  urlparse.urlparse "https://idp.example/sso;v=1?inedugain=true#frag"
  = Ok (urlparse.mkParseResult "https" "idp.example" "/sso" "v=1" "inedugain=true" "frag").
Proof. vm_compute. reflexivity. Qed.

Example parse_qs_demo :
  urlparse.parse_qs "a=1&inedugain=fal%73e;a=2&b" !! "inedugain" = Some ["false"].
Proof. vm_compute. reflexivity. Qed.

Example backend_init_demo :
  InAcademiaSAMLBackend.__init__ (env := Demo.collaborators)
    "https://broker.example" "https://mdx.example" "https://disco.example"
  = Ok Demo.backend.
Proof. reflexivity. Qed.

(** A persistent-format name id is the identifier of a transaction of
    persistent scope. *)
Example acs_persistent_demo :
  (InAcademiaSAMLBackend.acs (env := Demo.collaborators) Demo.backend
     (Some "<persistent/>") BINDING_HTTP_POST "tx-1" (Demo.session ["persistent"])
     (Demo.world0 0)).1
  = Ok ("abc123", true, Demo.student, "2015-01-01T00:00:00Z", Demo.idp).
Proof. vm_compute. reflexivity. Qed.

(** ** Characters that do not occur in a string *)

Create HintDb str_free discriminated.

Section str_facts.
Import Str.
Implicit Types (c d : ascii) (s t : string) (n i : nat).

Lemma free_empty c : free c EmptyString.
Proof. reflexivity. Qed.

Lemma free_String c d s : free c (String d s) ↔ d ≠ c ∧ free c s.
Proof.
  unfold free; simpl. destruct (Ascii.eqb_spec d c); split; intros; try easy; tauto.
Qed.

Lemma free_append c s t : free c s → free c t → free c (s +:+ t).
Proof.
  induction s as [|d s IH]; [intros _ Ht; exact Ht|].
  change (String d s +:+ t) with (String d (s +:+ t)).
  rewrite !free_String. intros [? ?] ?. split; auto.
Qed.

Lemma free_take c n s : free c s → free c (take n s).
Proof.
  revert s; induction n as [|n IH]; intros [|d s]; simpl; try easy.
  rewrite !free_String. intros [? ?]; split; auto.
Qed.

Lemma free_drop c n s : free c s → free c (drop n s).
Proof.
  revert s; induction n as [|n IH]; intros [|d s]; simpl; try easy.
  rewrite free_String. intros [? ?]; auto.
Qed.

Lemma find_None_free c s : find c s = None → free c s.
Proof.
  induction s as [|d s IH]; simpl; [reflexivity|].
  rewrite free_String. destruct (Ascii.eqb_spec d c); [discriminate|].
  destruct (find c s); [discriminate|]. auto.
Qed.

Lemma free_find_None c s : free c s → find c s = None.
Proof.
  induction s as [|d s IH]; simpl; [reflexivity|].
  rewrite free_String. intros [Hd Hs].
  destruct (Ascii.eqb_spec d c); [contradiction|]. by rewrite IH.
Qed.

(** Before the position that [find] reports there is no occurrence. *)
Lemma find_Some_free_take c s i n :
  find c s = Some i → (n ≤ i)%nat → free c (take n s).
Proof.
  revert i n; induction s as [|d s IH]; intros i n; simpl; [discriminate|].
  destruct (Ascii.eqb_spec d c) as [->|Hd].
  - intros [= <-] Hn. replace n with 0 by lia. reflexivity.
  - destruct (find c s) as [j|] eqn:Hj; [|discriminate].
    intros [= <-] Hn. destruct n as [|n]; [reflexivity|].
    simpl. rewrite free_String. split; [done|]. apply (IH j); [done | lia].
Qed.

Lemma drop_take n i s : drop n (take i s) = take (i - n) (drop n s).
Proof.
  revert i s; induction n as [|n IH]; intros i s.
  - by rewrite Nat.sub_0_r.
  - destruct i as [|i], s as [|d s]; simpl; try done.
    by destruct (i - n).
Qed.

Lemma split1_fst_free_sep c s : free c (split1 c s).1 ∨ free c s.
Proof.
  unfold split1. destruct (find c s) as [i|] eqn:Hi; simpl.
  - left. by apply (find_Some_free_take c s i i).
  - right. by apply find_None_free.
Qed.

Lemma split1_fst_free c d s : free c s → free c (split1 d s).1.
Proof.
  unfold split1. destruct (find d s); cbn [fst snd]; [apply free_take | done].
Qed.

Lemma split1_snd_free c d s : free c s → free c (split1 d s).2.
Proof.
  unfold split1. destruct (find d s); cbn [fst snd]; [apply free_drop | done].
Qed.

Lemma free_lower c s :
  (∀ d, lower_char d = c → d = c) → free c s → free c (lower s).
Proof.
  intros Hc. induction s as [|d s IH]; simpl; [done|].
  rewrite !free_String. intros [Hd Hs]. split; [|auto].
  intros Heq. apply Hd. by apply Hc.
Qed.

Lemma free_all c (p : ascii → bool) s :
  p c = false → all p s = true → free c s.
Proof.
  intros Hc. induction s as [|d s IH]; simpl; [done|].
  rewrite free_String, andb_true_iff. intros [Hd Hs]. split; [|auto].
  intros ->. congruence.
Qed.

End str_facts.

#[global] Hint Resolve free_empty free_append free_take free_drop
  split1_fst_free split1_snd_free : str_free.

(** ** Facts about [urlparse] *)

Section urlparse_facts.
Import Str urlparse.
Implicit Types (c : ascii) (url : string).

Lemma splitnetloc_netloc_free_delim url start c :
  c = "/"%char ∨ separator c → free c (_splitnetloc url start).1.
Proof.
  intros Hc. unfold _splitnetloc. cbn [fst fold_left]. rewrite drop_take.
  unfold find_from.
  destruct (find "/" (drop start url)) as [i1|] eqn:H1,
           (find "?" (drop start url)) as [i2|] eqn:H2,
           (find "#" (drop start url)) as [i3|] eqn:H3;
    cbn [fmap option_fmap option_map];
    destruct Hc as [->|[->| ->]];
    first [ eapply find_Some_free_take; [eassumption | lia]
          | apply free_take, find_None_free; assumption ].
Qed.

Lemma splitnetloc_free url start c :
  free c url → free c (_splitnetloc url start).1 ∧ free c (_splitnetloc url start).2.
Proof.
  intros Hc. unfold _splitnetloc. cbn [fst snd]. auto with str_free.
Qed.

Lemma unmatched_bracket_free netloc :
  free "[" netloc → free "]" netloc → unmatched_bracket netloc = false.
Proof. unfold unmatched_bracket, free. by intros -> ->. Qed.

(** What [split_after_scheme] yields: the scheme it was given, no
    separator in the network location or in the path, no character
    that the input did not have, and an empty query and fragment for
    an input without the separators. *)
Lemma split_after_scheme_Ok scheme url r :
  split_after_scheme scheme url = Ok r →
  s_scheme r = scheme
  ∧ (∀ c, separator c → free c (s_netloc r) ∧ free c (s_path r))
  ∧ (∀ c, free c url → free c (s_netloc r) ∧ free c (s_path r))
  ∧ (free "#" url → s_fragment r = EmptyString)
  ∧ (free "?" url → s_query r = EmptyString).
Proof.
  unfold split_after_scheme.
  set (first_part := if String.eqb (take 2 url) "//" then _ else _).
  assert (Hfirst : ∀ netloc url1, first_part = Ok (netloc, url1) →
            (∀ c, separator c → free c netloc)
            ∧ (∀ c, free c url → free c netloc ∧ free c url1)).
  { subst first_part. intros netloc url1.
    destruct (String.eqb (take 2 url) "//").
    - pose proof (splitnetloc_netloc_free_delim url 2) as Hd.
      pose proof (splitnetloc_free url 2) as Hf.
      destruct (_splitnetloc url 2) as [n u]. cbn [fst snd] in *.
      destruct (unmatched_bracket n); [discriminate|].
      intros [= <- <-]. split; [intros c Hc; apply Hd; by right | done].
    - intros [= <- <-]. split; [intros; apply free_empty|].
      intros c Hc. split; [apply free_empty | done]. }
  destruct first_part as [[netloc url1]|e]; [|discriminate].
  destruct (Hfirst netloc url1 eq_refl) as [Hsep Hfree]. clear Hfirst.
  cbn [rbind].
  pose proof (split1_fst_free_sep "#" url1) as Hhash.
  pose proof (λ c, split1_fst_free c "#" url1) as Hhash'.
  destruct (occurs "#" url1) eqn:Ho1.
  - destruct (split1 "#" url1) as [url2 fragment] eqn:Hs1. cbn [fst snd] in *.
    destruct Hhash as [Hhash|Hhash]; [|unfold free in Hhash; congruence].
    pose proof (split1_fst_free_sep "?" url2) as Hq.
    pose proof (λ c, split1_fst_free c "?" url2) as Hq'.
    destruct (occurs "?" url2) eqn:Ho2.
    + destruct (split1 "?" url2) as [url3 query] eqn:Hs2. cbn [fst snd] in *.
      destruct Hq as [Hq|Hq]; [|unfold free in Hq; congruence].
      intros [= <-]. cbn. split; [done|]. split; [|split; [|split]].
      * intros c [-> | ->]; split; auto. by apply Hsep; left. by apply Hsep; right.
      * intros c Hc. destruct (Hfree c Hc). auto.
      * intros Hc. destruct (Hfree _ Hc) as [_ Hu]. unfold free in Hu. congruence.
      * intros Hc. destruct (Hfree _ Hc) as [_ Hu].
        apply Hhash' in Hu. unfold free in Hu. congruence.
    + intros [= <-]. cbn. split; [done|]. split; [|split; [|split]].
      * intros c [-> | ->]; split; auto. by apply Hsep; left. by apply Hsep; right.
      * intros c Hc. destruct (Hfree c Hc). auto.
      * intros Hc. destruct (Hfree _ Hc) as [_ Hu]. unfold free in Hu. congruence.
      * done.
  - pose proof (split1_fst_free_sep "?" url1) as Hq.
    pose proof (λ c, split1_fst_free c "?" url1) as Hq'.
    destruct (occurs "?" url1) eqn:Ho2.
    + destruct (split1 "?" url1) as [url3 query] eqn:Hs2. cbn [fst snd] in *.
      destruct Hq as [Hq|Hq]; [|unfold free in Hq; congruence].
      intros [= <-]. cbn. split; [done|]. split; [|split; [|split]].
      * intros c [-> | ->]; split; auto. by apply Hsep; left. by apply Hsep; right.
      * intros c Hc. destruct (Hfree c Hc). auto.
      * done.
      * intros Hc. destruct (Hfree _ Hc) as [_ Hu]. unfold free in Hu. congruence.
    + intros [= <-]. cbn. split; [done|]. split; [|split; [|split]].
      * intros c [-> | ->]; split; auto. by apply Hsep; left. by apply Hsep; right.
      * intros c Hc. destruct (Hfree c Hc). auto.
      * done.
      * done.
Qed.

Lemma split_after_scheme_total scheme url :
  free "[" url → free "]" url → ∃ r, split_after_scheme scheme url = Ok r.
Proof.
  intros Hl Hr. unfold split_after_scheme.
  destruct (String.eqb (take 2 url) "//").
  - pose proof (splitnetloc_free url 2 _ Hl) as [Hl' _].
    pose proof (splitnetloc_free url 2 _ Hr) as [Hr' _].
    destruct (_splitnetloc url 2) as [n u]. cbn [fst] in *.
    rewrite unmatched_bracket_free by done. cbn [rbind].
    repeat case_match; eauto.
  - cbn [rbind]. repeat case_match; eauto.
Qed.

Lemma lower_char_separator d c : separator c → lower_char d = c → d = c.
Proof.
  destruct d as [[] [] [] [] [] [] [] []]; intros [-> | ->]; vm_compute;
    first [ reflexivity | discriminate ].
Qed.

Lemma scheme_chars_separator c : separator c → occurs c scheme_chars = false.
Proof. by intros [-> | ->]. Qed.

(** The scheme that [urlsplit] recognises in front of the first colon. *)
Lemma scheme_free url i c :
  separator c →
  String.eqb (take i url) "http" = true
  ∨ all (λ c, occurs c scheme_chars) (take i url) = true →
  free c (lower (take i url)).
Proof.
  intros Hc [Hhttp | Hall].
  - apply String.eqb_eq in Hhttp. rewrite Hhttp. by destruct Hc as [-> | ->].
  - apply free_lower; [intros d; by apply lower_char_separator|].
    eapply free_all; [|exact Hall]. by apply scheme_chars_separator.
Qed.

Lemma urlsplit_Ok url r :
  urlsplit url = Ok r →
  (∀ c, separator c → free c (s_scheme r) ∧ free c (s_netloc r) ∧ free c (s_path r))
  ∧ (free "#" url → s_fragment r = EmptyString)
  ∧ (free "?" url → s_query r = EmptyString).
Proof.
  assert (Hplain : ∀ u, (∀ c, free c url → free c u) →
            split_after_scheme EmptyString u = Ok r →
            (∀ c, separator c → free c (s_scheme r) ∧ free c (s_netloc r) ∧ free c (s_path r))
            ∧ (free "#" url → s_fragment r = EmptyString)
            ∧ (free "?" url → s_query r = EmptyString)).
  { intros u Hu Hr. apply split_after_scheme_Ok in Hr as (Hs & Hsep & _ & Hf & Hq).
    rewrite Hs. split; [|split; auto].
    intros c Hc. split; [apply free_empty | by apply Hsep]. }
  assert (Hscheme : ∀ i u, (∀ c, free c url → free c u) →
            String.eqb (take i url) "http" = true
            ∨ all (λ c, occurs c scheme_chars) (take i url) = true →
            split_after_scheme (lower (take i url)) u = Ok r →
            (∀ c, separator c → free c (s_scheme r) ∧ free c (s_netloc r) ∧ free c (s_path r))
            ∧ (free "#" url → s_fragment r = EmptyString)
            ∧ (free "?" url → s_query r = EmptyString)).
  { intros i u Hu Hi Hr. apply split_after_scheme_Ok in Hr as (Hs & Hsep & _ & Hf & Hq).
    rewrite Hs. split; [|split; auto].
    intros c Hc. split; [by apply scheme_free | by apply Hsep]. }
  unfold urlsplit.
  destruct (find ":" url) as [[|i]|]; [by apply Hplain | | by apply Hplain].
  destruct (String.eqb (take (S i) url) "http") eqn:Hhttp.
  { apply Hscheme; [intros; by apply free_drop | by left]. }
  destruct (all _ (take (S i) url)) eqn:Hall; [|by apply Hplain].
  destruct (_ || _); [|by apply Hplain].
  apply Hscheme; [intros; by apply free_drop | by right].
Qed.

Lemma urlsplit_total url : free "[" url → free "]" url → ∃ r, urlsplit url = Ok r.
Proof.
  intros Hl Hr. unfold urlsplit.
  repeat case_match; apply split_after_scheme_total; auto with str_free.
Qed.

Lemma splitparams_free url c :
  free c url → free c (_splitparams url).1 ∧ free c (_splitparams url).2.
Proof.
  intros Hc. unfold _splitparams.
  repeat case_match; cbn [fst snd]; auto with str_free.
Qed.

(** A successful [urlparse] leaves no separator in the scheme, the
    network location, the path or the parameters, and finds neither a
    query nor a fragment in a string without separators. *)
Lemma urlparse_Ok url p :
  urlparse url = Ok p →
  (∀ c, separator c →
     free c (scheme p) ∧ free c (netloc p) ∧ free c (path p) ∧ free c (params p))
  ∧ (free "#" url → fragment p = EmptyString)
  ∧ (free "?" url → query p = EmptyString).
Proof.
  unfold urlparse. destruct (urlsplit url) as [r|e] eqn:Hr; [|discriminate].
  apply urlsplit_Ok in Hr as (Hsep & Hf & Hq). destruct r as [sch nl pa qu fr].
  cbn [rbind s_scheme s_netloc s_path s_query s_fragment] in *.
  destruct (str_in sch uses_params && occurs ";" pa).
  - pose proof (splitparams_free pa) as Hp.
    destruct (_splitparams pa) as [pa' pr]. cbn [fst snd] in Hp.
    intros [= <-]. cbn. split; [|auto].
    intros c Hc. destruct (Hsep c Hc) as (? & ? & Hpa). destruct (Hp c Hpa). auto.
  - intros [= <-]. cbn. split; [|auto].
    intros c Hc. destruct (Hsep c Hc) as (? & ? & Hpa). repeat split; auto; apply free_empty.
Qed.

Lemma urlparse_total url : free "[" url → free "]" url → ∃ p, urlparse url = Ok p.
Proof.
  intros Hl Hr. unfold urlparse.
  destruct (urlsplit_total url Hl Hr) as [[sch nl pa qu fr] ->]. cbn [rbind].
  repeat case_match; eauto.
Qed.

(** Putting the parts together again without query and fragment gives
    a string without separators. *)
Lemma urlunparse_free c sch nl pa pr :
  separator c → free c sch → free c nl → free c pa → free c pr →
  free c (urlunparse (mkParseResult sch nl pa pr EmptyString EmptyString)).
Proof.
  intros Hc Hsch Hnl Hpa Hpr. unfold urlunparse, urlunsplit. cbn [nonempty].
  assert (Hlit : free c "/" ∧ free c "//" ∧ free c ":" ∧ free c ";")
    by (by destruct Hc as [-> | ->]).
  destruct Hlit as (? & ? & ? & ?).
  repeat case_match; repeat apply free_append; assumption.
Qed.

End urlparse_facts.

Section str_append_facts.
Import Str.
Implicit Types (c d : ascii) (s t a b : string) (n i : nat).

Lemma append_String d s t : String d s +:+ t = String d (s +:+ t).
Proof. reflexivity. Qed.

Lemma append_empty_r s : s +:+ EmptyString = s.
Proof. induction s as [|d s IH]; [done|]. by rewrite append_String, IH. Qed.

Lemma length_append a b : String.length (a +:+ b) = String.length a + String.length b.
Proof. induction a as [|d a IH]; [done|]. rewrite append_String. simpl. by rewrite IH. Qed.

Lemma take_append a b : take (String.length a) (a +:+ b) = a.
Proof. induction a as [|d a IH]; [by destruct b|]. rewrite append_String. simpl. by rewrite IH. Qed.

Lemma drop_append a b : drop (String.length a) (a +:+ b) = b.
Proof. induction a as [|d a IH]; [done|]. rewrite append_String. simpl. by rewrite IH. Qed.

Lemma occurs_append c a b : occurs c (a +:+ b) = occurs c a || occurs c b.
Proof.
  induction a as [|d a IH]; [done|]. rewrite append_String. simpl.
  by destruct (Ascii.eqb d c).
Qed.

Lemma find_append_free c a b :
  free c a → find c (a +:+ b) = (λ i, String.length a + i) <$> find c b.
Proof.
  induction a as [|d a IH].
  - intros _. change (EmptyString +:+ b) with b. simpl. destruct (find c b); reflexivity.
  - rewrite free_String. intros [Hd Ha]. rewrite append_String. simpl.
    destruct (Ascii.eqb_spec d c); [done|]. rewrite (IH Ha).
    by destruct (find c b).
Qed.

(** Splitting at the first [c] when the text before it has none. *)
Lemma split1_append c a b :
  free c a → split1 c (a +:+ String c b) = (a, b).
Proof.
  intros Ha. unfold split1. rewrite (find_append_free c a _ Ha).
  cbn [find]. rewrite Ascii.eqb_refl. cbn [fmap option_fmap option_map].
  rewrite Nat.add_0_r, take_append. f_equal.
  clear Ha. induction a as [|d a IH]; [reflexivity|].
  rewrite append_String. simpl. exact IH.
Qed.

Lemma before_free c s : free c s → before c s = s.
Proof. unfold before, free. by intros ->. Qed.

Lemma before_append c a b : free c a → before c (a +:+ String c b) = a.
Proof.
  intros Ha. unfold before. rewrite occurs_append. cbn [occurs].
  rewrite Ascii.eqb_refl, orb_true_r. by rewrite split1_append.
Qed.

Lemma before_append_other c d a b :
  free c a → c ≠ d → before c (a +:+ String d b) = a +:+ String d (before c b).
Proof.
  intros Ha Hcd. unfold before. rewrite occurs_append. unfold free in Ha. rewrite Ha.
  cbn [orb occurs]. destruct (Ascii.eqb_spec d c) as [->|_]; [done|].
  destruct (occurs c b) eqn:Hb; [|done].
  unfold split1. rewrite (find_append_free c a _ Ha). cbn [find].
  destruct (Ascii.eqb_spec d c) as [->|_]; [done|].
  destruct (find c b) as [i|] eqn:Hi.
  - cbn [fmap option_fmap option_map fst].
    clear Hb Hi. induction a as [|e a IH].
    + reflexivity.
    + apply free_String in Ha as [_ Ha]. rewrite !append_String. simpl.
      f_equal. by apply IH.
  - apply find_None_free in Hi. unfold free in Hi. congruence.
Qed.

End str_append_facts.

(** ** Identifiers of the usual shape *)

Section canonical_shape.
Import Str urlparse.

Lemma splitnetloc_host (host t : string) :
  free "/" host → free "?" host → free "#" host → ends_netloc t →
  _splitnetloc ("//" +:+ host +:+ t) 2 = (host, t).
Proof.
  intros Hslash Hquery Hhash Ht. unfold _splitnetloc. cbn [fold_left].
  rewrite drop_take. unfold find_from.
  change (drop 2 ("//" +:+ host +:+ t)) with (host +:+ t).
  rewrite !find_append_free by done.
  change (String.length ("//" +:+ host +:+ t)) with (S (S (String.length (host +:+ t)))).
  rewrite length_append.
  set (n := String.length host).
  match goal with |- (take (?d - 2) _, _) = _ => assert (Hdelim : d = S (S n)) end.
  { destruct Ht as [->|(c & t' & -> & [->|[->| ->]])]; simpl;
      repeat (match goal with |- context [find ?c t'] => destruct (find c t') end; simpl);
      lia. }
  rewrite Hdelim. replace (S (S n) - 2) with n by lia.
  subst n. rewrite take_append.
  change (drop (S (S (String.length host))) ("//" +:+ host +:+ t))
    with (drop (String.length host) (host +:+ t)).
  by rewrite drop_append.
Qed.

(** The path of [path ++ rest] once fragment and query are cut off. *)
Lemma before_path (path rest : string) :
  free "?" path → free "#" path → ends_path rest →
  before "?" (before "#" (path +:+ rest)) = path.
Proof.
  intros Hquery Hhash [->|(c & rest' & -> & [-> | ->])].
  - rewrite append_empty_r, (before_free "#" path Hhash). by apply before_free.
  - rewrite before_append_other; [|assumption|discriminate]. by apply before_append.
  - rewrite before_append by done. by apply before_free.
Qed.

Lemma split_after_scheme_host (scheme host path rest : string) :
  free "/" host → free "?" host → free "#" host → free "[" host → free "]" host →
  ends_netloc (path +:+ rest) → free "?" path → free "#" path → ends_path rest →
  ∃ query fragment,
    split_after_scheme scheme ("//" +:+ host +:+ path +:+ rest)
    = Ok (mkSplitResult scheme host path query fragment).
Proof.
  intros Hslash Hquery Hhash Hl Hr Hends Hpq Hph Hrest. unfold split_after_scheme.
  change (take 2 ("//" +:+ host +:+ path +:+ rest)) with "//".
  rewrite String.eqb_refl, (splitnetloc_host host (path +:+ rest)) by done.
  rewrite unmatched_bracket_free by done. cbn [rbind].
  pose proof (before_path path rest Hpq Hph Hrest) as Hpath. unfold before in Hpath.
  destruct (occurs "#" (path +:+ rest)).
  - destruct (split1 "#" (path +:+ rest)) as [url2 fragment]. cbn [fst] in Hpath.
    destruct (occurs "?" url2).
    + destruct (split1 "?" url2) as [url3 query]. cbn [fst] in Hpath. subst url3. eauto.
    + subst url2. eauto.
  - destruct (occurs "?" (path +:+ rest)).
    + destruct (split1 "?" (path +:+ rest)) as [url3 query]. cbn [fst] in Hpath.
      subst url3. eauto.
    + rewrite Hpath. eauto.
Qed.

(** An [http] or [https] identifier with a host, a path without
    parameters, and possibly a query and a fragment: its canonical form
    is scheme, host and path. *)
Lemma parse_idp_entity_id_http (scheme host path rest : string) :
  scheme = "http" ∨ scheme = "https" →
  host ≠ EmptyString →
  free "/" host → free "?" host → free "#" host → free "[" host → free "]" host →
  path = EmptyString ∨ (∃ path', path = String "/" path') →
  free "?" path → free "#" path → free ";" path →
  ends_path rest →
  InAcademiaSAMLBackend._parse_idp_entity_id (scheme +:+ "://" +:+ host +:+ path +:+ rest)
  = Ok (scheme +:+ "://" +:+ host +:+ path).
Proof.
  intros Hscheme Hhost Hslash Hquery Hhash Hl Hr Hpath Hpq Hph Hps Hrest.
  assert (Hends : ends_netloc (path +:+ rest)).
  { destruct Hpath as [->|[path' ->]].
    - destruct Hrest as [->|(c & t' & -> & Hc)]; [by left|].
      right. exists c, t'. split; [done|]. tauto.
    - right. exists "/"%char, (path' +:+ rest). split; [done|]. tauto. }
  destruct (split_after_scheme_host scheme host path rest) as (query & fragment & Hsplit);
    try done.
  assert (Hurlsplit : urlsplit (scheme +:+ "://" +:+ host +:+ path +:+ rest)
                      = Ok (mkSplitResult scheme host path query fragment)).
  { destruct Hscheme as [-> | ->]; exact Hsplit. }
  unfold InAcademiaSAMLBackend._parse_idp_entity_id, urlparse. rewrite Hurlsplit.
  cbn [rbind]. unfold free in Hps. rewrite Hps, andb_false_r. cbn [rbind].
  cbn [urlparse.scheme urlparse.netloc urlparse.path urlparse.params].
  unfold urlunparse, urlunsplit. cbn [nonempty].
  destruct host as [|h host]; [done|]. cbn [nonempty orb].
  f_equal.
  destruct Hpath as [->|[path' ->]]; destruct Hscheme as [-> | ->]; reflexivity.
Qed.

End canonical_shape.

(** ** Persona selection *)

Lemma str_in_spec (x : string) (l : list string) : str_in x l = true ↔ x ∈ l.
Proof.
  unfold str_in. rewrite existsb_exists. split.
  - intros (y & Hy & Heq). apply String.eqb_eq in Heq as ->. by apply list_elem_of_In.
  - intros Hx. exists x. split; [by apply list_elem_of_In | apply String.eqb_refl].
Qed.

Lemma str_in_false (x : string) (l : list string) : str_in x l = false ↔ x ∉ l.
Proof.
  rewrite <- str_in_spec. destruct (str_in x l); split; intros; done.
Qed.

(** C1: with both personas registered, persona selection is a total
    function of the scope: the persistent persona when the token
    [persistent] is a member of the scope, the transient persona for
    every other scope. *)
Theorem choose_service_provider_by_scope
    (self : InAcademiaSAMLBackend.t) (persistent transient : SamlSp.t)
    (scope : list string) :
  InAcademiaSAMLBackend.SP self !! PERSISTENT_NAMEID = Some persistent →
  InAcademiaSAMLBackend.SP self !! TRANSIENT_NAMEID = Some transient →
  PERSISTENT_NAMEID = "persistent"
  ∧ ("persistent" ∈ scope →
       InAcademiaSAMLBackend._choose_service_provider self scope = Ok persistent)
  ∧ ("persistent" ∉ scope →
       InAcademiaSAMLBackend._choose_service_provider self scope = Ok transient).
Proof.
  intros Hp Ht. split; [reflexivity|].
  unfold InAcademiaSAMLBackend._choose_service_provider,
    PERSISTENT_NAMEID, TRANSIENT_NAMEID in *.
  split; intros Hscope.
  - apply str_in_spec in Hscope. rewrite Hscope. by rewrite Hp.
  - apply str_in_false in Hscope. rewrite Hscope. by rewrite Ht.
Qed.

Lemma choose_service_provider_by_scope_witness :
  InAcademiaSAMLBackend._choose_service_provider Demo.backend ["openid"; "persistent"]
  = Ok Demo.persistent_sp
  ∧ InAcademiaSAMLBackend._choose_service_provider Demo.backend ["openid"; "transient"]
    = Ok Demo.transient_sp.
Proof.
  split.
  - apply (choose_service_provider_by_scope Demo.backend Demo.persistent_sp
             Demo.transient_sp ["openid"; "persistent"]);
      [vm_compute; reflexivity | vm_compute; reflexivity | ].
    apply list_elem_of_In. simpl. auto.
  - apply (choose_service_provider_by_scope Demo.backend Demo.persistent_sp
             Demo.transient_sp ["openid"; "transient"]);
      [vm_compute; reflexivity | vm_compute; reflexivity | ].
    intros Hin. apply list_elem_of_In in Hin. simpl in Hin.
    destruct Hin as [Heq | [Heq | []]]; discriminate.
Defined.

(** ** Derivation of the durable identifier *)

(** On a name id and attributes that are absent or have a value,
    [get_name_id] follows a strict precedence: the text of the asserted
    name id when its format is the persistent one; otherwise the first
    value of [eduPersonTargetedID]; otherwise the first value of
    [eduPersonPrincipalName]; and [None] when neither attribute is
    there. *)
Lemma get_name_id_precedence (name_id : NameID) (identity : Identity) :
  (nameid_format name_id = NAMEID_FORMAT_PERSISTENT →
     InAcademiaSAMLBackend.get_name_id name_id identity
     = Ok (Some (nameid_text name_id)))
  ∧ (nameid_format name_id ≠ NAMEID_FORMAT_PERSISTENT →
       (∀ value values,
          identity !! "eduPersonTargetedID" = Some (value :: values) →
          InAcademiaSAMLBackend.get_name_id name_id identity = Ok (Some value))
       ∧ (identity !! "eduPersonTargetedID" = None →
          ∀ value values,
            identity !! "eduPersonPrincipalName" = Some (value :: values) →
            InAcademiaSAMLBackend.get_name_id name_id identity = Ok (Some value))
       ∧ (identity !! "eduPersonTargetedID" = None →
          identity !! "eduPersonPrincipalName" = None →
          InAcademiaSAMLBackend.get_name_id name_id identity = Ok None)).
Proof.
  unfold InAcademiaSAMLBackend.get_name_id. split.
  - intros ->. by rewrite String.eqb_refl.
  - intros Hformat. apply String.eqb_neq in Hformat. rewrite Hformat.
    split; [|split].
    + intros value values ->. reflexivity.
    + intros -> value values ->. reflexivity.
    + intros -> ->. reflexivity.
Qed.

Lemma get_name_id_precedence_witness :
  InAcademiaSAMLBackend.get_name_id
    (mkNameID Demo.transient_format "n-1")
    (<["eduPersonPrincipalName" := ["alice@uni.example"]]> Demo.student)
  = Ok (Some "eptid-1").
Proof.
  refine (proj1 (proj2 (get_name_id_precedence _ _) _) "eptid-1" [] _).
  - discriminate.
  - vm_compute. reflexivity.
Defined.

(** An attribute that is present without a value stops the derivation
    with an [IndexError]. *)
Lemma get_name_id_empty_attribute (name_id : NameID) (identity : Identity) :
  nameid_format name_id ≠ NAMEID_FORMAT_PERSISTENT →
  identity !! "eduPersonTargetedID" = Some [] →
  InAcademiaSAMLBackend.get_name_id name_id identity = Raise IndexError.
Proof.
  intros Hformat Hempty. unfold InAcademiaSAMLBackend.get_name_id.
  apply String.eqb_neq in Hformat. by rewrite Hformat, Hempty.
Qed.

(** C3: the derivation does not go on to the next attribute when
    [eduPersonTargetedID] is there without a value: for a name id of
    another format than the persistent one and an identity whose
    [eduPersonPrincipalName] has a first value, [get_name_id] returns
    neither that value nor [None]; [identity[key][0]] raises
    [IndexError]. *)
Theorem get_name_id_raises_on_unvalued_attribute :
  nameid_format (mkNameID Demo.transient_format "n-1") ≠ NAMEID_FORMAT_PERSISTENT
  ∧ Demo.unvalued !! "eduPersonTargetedID" = Some []
  ∧ Demo.unvalued !! "eduPersonPrincipalName" = Some ["alice@uni.example"]
  ∧ InAcademiaSAMLBackend.get_name_id (mkNameID Demo.transient_format "n-1")
      Demo.unvalued
    = Raise IndexError.
Proof. split; [discriminate|]. repeat split; vm_compute; reflexivity. Qed.

(** ** The query of an identifier *)

Section query_facts.
Import Str urlparse.








End query_facts.

(** ** The federation guard *)

Lemma is_in_edugain_parsed (entity_id : string) (parsed : urlparse.ParseResult) :
  urlparse.urlparse entity_id = Ok parsed →
  InAcademiaSAMLBackend._is_in_edugain entity_id
  = Ok (str_in "true"
          (default ["true"] (urlparse.parse_qs (urlparse.query parsed) !! "inedugain"))).
Proof.
  intros Hparsed. unfold InAcademiaSAMLBackend._is_in_edugain. by rewrite Hparsed.
Qed.

Lemma parse_idp_entity_id_parsed (entity_id : string) (parsed : urlparse.ParseResult) :
  urlparse.urlparse entity_id = Ok parsed →
  InAcademiaSAMLBackend._parse_idp_entity_id entity_id
  = Ok (urlparse.urlunparse
          (urlparse.mkParseResult (urlparse.scheme parsed) (urlparse.netloc parsed)
             (urlparse.path parsed) (urlparse.params parsed) "" "")).
Proof.
  intros Hparsed. unfold InAcademiaSAMLBackend._parse_idp_entity_id. by rewrite Hparsed.
Qed.






Section usual_shape.
Import Str urlparse.



End usual_shape.




(** The canonical identifier exists for every identifier without square
    brackets. *)
Lemma parse_idp_entity_id_total (entity_id : string) :
  free "[" entity_id → free "]" entity_id →
  ∃ idp_entity_id, InAcademiaSAMLBackend._parse_idp_entity_id entity_id = Ok idp_entity_id.
Proof.
  intros Hl Hr. destruct (urlparse_total entity_id Hl Hr) as [parsed Hparsed].
  unfold InAcademiaSAMLBackend._parse_idp_entity_id. rewrite Hparsed. cbn [rbind]. eauto.
Qed.

(** An unmatched square bracket in the network location makes both
    [_parse_idp_entity_id] and [_is_in_edugain] raise [ValueError]. *)
Example parse_idp_entity_id_invalid_ipv6 :
  InAcademiaSAMLBackend._parse_idp_entity_id "https://[idp.example/sso?inedugain=true"
  = Raise (ValueError "Invalid IPv6 URL")
  ∧ InAcademiaSAMLBackend._is_in_edugain "https://[idp.example/sso?inedugain=true"
    = Raise (ValueError "Invalid IPv6 URL").
Proof. split; vm_compute; reflexivity. Qed.

(** ** Running the monad *)

Ltac run_step :=
  unfold log_internal, log_transaction_idp, abort_with_client_error,
    negative_transaction_response;
  unfold mbind, mret, M_bind, M_ret, lift, raise, try_except, emit, clock;
  cbn beta iota.

Lemma rndstr_spec (size : nat) (w : world) :
  rndstr size w
  = (Ok (token_of (w_random w) (w_cursor w) size),
     mkWorld (w_events w) (w_random w) (size + w_cursor w) (w_clock w)).
Proof.
  revert w; induction size as [|size IH]; intros w.
  - destruct w; reflexivity.
  - cbn [rndstr token_of]. run_step. unfold random_choice. rewrite IH.
    cbn [w_events w_random w_cursor w_clock]. by rewrite Nat.add_succ_r.
Qed.

#[local] Opaque rndstr.

(** ** Binding selection *)

Lemma choose_binding_post (destinations : Destinations) :
  is_Some (destinations !! BINDING_HTTP_POST) →
  SamlSp.choose_binding destinations = Some BINDING_HTTP_POST.
Proof. intros Hpost. unfold SamlSp.choose_binding. by rewrite decide_True. Qed.

Lemma choose_binding_redirect (destinations : Destinations) :
  destinations !! BINDING_HTTP_POST = None →
  is_Some (destinations !! BINDING_HTTP_REDIRECT) →
  SamlSp.choose_binding destinations = Some BINDING_HTTP_REDIRECT.
Proof.
  intros Hpost Hredirect. unfold SamlSp.choose_binding.
  rewrite decide_False by (rewrite Hpost; by intros [? ?]).
  by rewrite decide_True.
Qed.

Lemma choose_binding_none (destinations : Destinations) :
  destinations !! BINDING_HTTP_POST = None →
  destinations !! BINDING_HTTP_REDIRECT = None →
  SamlSp.choose_binding destinations = None.
Proof.
  intros Hpost Hredirect. unfold SamlSp.choose_binding.
  rewrite decide_False by (rewrite Hpost; by intros [? ?]).
  by rewrite decide_False by (rewrite Hredirect; by intros [? ?]).
Qed.

Section binding.
Context {env : Collaborators}.

(** What [construct_authn_request] does once the binding is chosen. *)
Lemma construct_authn_request_chosen (self : SamlSp.t) (idp_entity_id : string)
    (mds : Metadata) (policy : NameIDPolicy) (acs_url acs_index : string)
    (destinations : Destinations) (binding : string) (w : world) :
  mds idp_entity_id "idpsso_descriptor" "single_sign_on_service" = Ok (Some destinations) →
  SamlSp.choose_binding destinations = Some binding →
  (∀ e, SamlSp.first_location destinations binding = Raise e →
     (SamlSp.construct_authn_request self idp_entity_id mds policy acs_url acs_index w).1
     = Raise e)
  ∧ (∀ location, SamlSp.first_location destinations binding = Ok location →
       ∃ request,
         (SamlSp.construct_authn_request self idp_entity_id mds policy acs_url acs_index w).1
         = Ok (request, binding)
         ∧ destination request = location
         ∧ force_authn request = (if SamlSp.force_authn self then "true" else "false")).
Proof.
  intros Hmds Hchoice. unfold SamlSp.construct_authn_request. run_step.
  rewrite Hmds, Hchoice. split.
  - intros e ->. reflexivity.
  - intros location ->. eexists. cbn [fst]. split; [reflexivity|]. split; reflexivity.
Qed.

(** C2: when the metadata offers HTTP-POST, the request is built for
    HTTP-POST, whether or not HTTP-Redirect is offered too; when it
    offers HTTP-Redirect only, for HTTP-Redirect; when it offers neither,
    the operation fails with the [ServiceErrorException] that reports the
    unsupported binding. *)
Theorem construct_authn_request_prefers_post (self : SamlSp.t) (idp_entity_id : string)
    (mds : Metadata) (policy : NameIDPolicy) (acs_url acs_index : string)
    (destinations : Destinations) (w : world) :
  mds idp_entity_id "idpsso_descriptor" "single_sign_on_service" = Ok (Some destinations) →
  (is_Some (destinations !! BINDING_HTTP_POST) →
     SamlSp.choose_binding destinations = Some BINDING_HTTP_POST
     ∧ (∀ request binding,
          (SamlSp.construct_authn_request self idp_entity_id mds policy acs_url acs_index w).1
          = Ok (request, binding) → binding = BINDING_HTTP_POST)
     ∧ (∀ location,
          SamlSp.first_location destinations BINDING_HTTP_POST = Ok location →
          ∃ request,
            (SamlSp.construct_authn_request self idp_entity_id mds policy acs_url acs_index w).1
            = Ok (request, BINDING_HTTP_POST)
            ∧ destination request = location))
  ∧ (destinations !! BINDING_HTTP_POST = None →
     is_Some (destinations !! BINDING_HTTP_REDIRECT) →
     SamlSp.choose_binding destinations = Some BINDING_HTTP_REDIRECT
     ∧ (∀ request binding,
          (SamlSp.construct_authn_request self idp_entity_id mds policy acs_url acs_index w).1
          = Ok (request, binding) → binding = BINDING_HTTP_REDIRECT)
     ∧ (∀ location,
          SamlSp.first_location destinations BINDING_HTTP_REDIRECT = Ok location →
          ∃ request,
            (SamlSp.construct_authn_request self idp_entity_id mds policy acs_url acs_index w).1
            = Ok (request, BINDING_HTTP_REDIRECT)
            ∧ destination request = location))
  ∧ (destinations !! BINDING_HTTP_POST = None →
     destinations !! BINDING_HTTP_REDIRECT = None →
     (SamlSp.construct_authn_request self idp_entity_id mds policy acs_url acs_index w).1
     = Raise (ServiceErrorException
                "IdP does not support http-post or http-redirect binding")).
Proof.
  intros Hmds.
  assert (Hchosen : ∀ binding, SamlSp.choose_binding destinations = Some binding →
            (∀ request binding',
               (SamlSp.construct_authn_request self idp_entity_id mds policy
                  acs_url acs_index w).1 = Ok (request, binding') → binding' = binding)
            ∧ (∀ location,
                 SamlSp.first_location destinations binding = Ok location →
                 ∃ request,
                   (SamlSp.construct_authn_request self idp_entity_id mds policy
                      acs_url acs_index w).1 = Ok (request, binding)
                   ∧ destination request = location)).
  { intros binding Hchoice.
    destruct (construct_authn_request_chosen self idp_entity_id mds policy acs_url
                acs_index destinations binding w Hmds Hchoice) as [Herr Hok].
    split.
    - intros request binding' Hrun.
      destruct (SamlSp.first_location destinations binding) as [location|e].
      + destruct (Hok location eq_refl) as (request' & Hrun' & _). congruence.
      + rewrite (Herr e eq_refl) in Hrun. discriminate.
    - intros location Hloc. destruct (Hok location Hloc) as (request & ? & ? & _). eauto. }
  split; [|split].
  - intros Hpost. pose proof (choose_binding_post destinations Hpost) as Hchoice.
    split; [done|]. by apply Hchosen.
  - intros Hpost Hredirect.
    pose proof (choose_binding_redirect destinations Hpost Hredirect) as Hchoice.
    split; [done|]. by apply Hchosen.
  - intros Hpost Hredirect.
    pose proof (choose_binding_none destinations Hpost Hredirect) as Hchoice.
    unfold SamlSp.construct_authn_request. run_step. by rewrite Hmds, Hchoice.
Qed.

End binding.

Lemma construct_authn_request_prefers_post_witness :
  ∃ request,
    (SamlSp.construct_authn_request (env := Demo.collaborators) Demo.persistent_sp
       Demo.idp Demo.mdx (SamlSp.nameid_policy Demo.persistent_sp)
       (SamlSp.response_url Demo.persistent_sp) "" (Demo.world0 0)).1
    = Ok (request, BINDING_HTTP_POST)
    ∧ destination request = "https://idp.example/sso/post".
Proof.
  refine (proj2 (proj2 (proj1
            (construct_authn_request_prefers_post (env := Demo.collaborators)
               Demo.persistent_sp Demo.idp Demo.mdx
               (SamlSp.nameid_policy Demo.persistent_sp)
               (SamlSp.response_url Demo.persistent_sp) "" Demo.sso_services
               (Demo.world0 0) _) _)) "https://idp.example/sso/post" _).
  - reflexivity.
  - exists [ {[ "location" := "https://idp.example/sso/post" ]} ]. reflexivity.
  - reflexivity.
Defined.

(** ** Response resolution *)

Section response.
Context {env : Collaborators}.

Lemma parse_auth_response_missing (sp : SamlSp.t) (SAMLResponse : option string)
    (binding : string) (w : world) :
  SamlSp.truthy SAMLResponse = false →
  SamlSp.parse_auth_response sp SAMLResponse binding w
  = (Raise (AuthnFailure "You are not authorized!"), logged missing_response_event w).
Proof.
  unfold SamlSp.truthy, SamlSp.parse_auth_response.
  destruct SAMLResponse as [xmlstr|]; [intros ->|intros _]; reflexivity.
Qed.

(** A response that is there is handed to the SAML library; the world
    stays as it is, and no failure is an [AuthnFailure]. *)
Lemma parse_auth_response_present (sp : SamlSp.t) (SAMLResponse : option string)
    (binding : string) (w : world) :
  SamlSp.truthy SAMLResponse = true →
  (SamlSp.parse_auth_response sp SAMLResponse binding w).2 = w
  ∧ ∀ e, (SamlSp.parse_auth_response sp SAMLResponse binding w).1 = Raise e →
         is_AuthnFailure e = false.
Proof.
  unfold SamlSp.truthy, SamlSp.parse_auth_response.
  destruct SAMLResponse as [xmlstr|]; [intros ->|discriminate].
  destruct (parse_authn_request_response _ xmlstr binding) as [msg|_response].
  - split; [reflexivity|]. by intros e [= <-].
  - destruct (authn_statement _response); (split; [reflexivity|]).
    + by intros e [= <-].
    + discriminate.
Qed.

Lemma parse_auth_response_Ok (sp : SamlSp.t) (SAMLResponse : option string)
    (binding : string) (w w' : world) parsed :
  SamlSp.parse_auth_response sp SAMLResponse binding w = (Ok parsed, w') → w' = w.
Proof.
  intros Hrun. destruct (SamlSp.truthy SAMLResponse) eqn:Htruthy.
  - destruct (parse_auth_response_present sp SAMLResponse binding w Htruthy) as [Hw _].
    rewrite Hrun in Hw. done.
  - rewrite parse_auth_response_missing in Hrun by done. discriminate.
Qed.

(** [acs] when the response cannot be resolved. *)
Lemma acs_parse_failure (self : InAcademiaSAMLBackend.t) (sp : SamlSp.t)
    (SAMLResponse : option string) (binding transaction_id : string)
    (transaction_session : TransactionSession) (w w' : world) (e : exn) :
  InAcademiaSAMLBackend._choose_service_provider self (ts_scope transaction_session)
  = Ok sp →
  SamlSp.parse_auth_response sp SAMLResponse binding w = (Raise e, w') →
  InAcademiaSAMLBackend.acs self SAMLResponse binding transaction_id transaction_session w
  = (Raise (ClientError
              (if is_AuthnFailure e then "User not authenticated at IdP."
               else "Could not parse Authentication Response from IdP.") ""), w').
Proof.
  intros Hsp Hparse. unfold InAcademiaSAMLBackend.acs. run_step.
  rewrite Hsp, Hparse. by destruct (is_AuthnFailure e).
Qed.

(** [acs] after a response has been resolved: the affiliation check,
    then the identifier of the scope's kind. *)
Lemma acs_after_parse (self : InAcademiaSAMLBackend.t) (sp : SamlSp.t)
    (SAMLResponse : option string) (binding transaction_id : string)
    (transaction_session : TransactionSession) (w : world)
    (name_id : NameID) (identity : Identity) (auth_time idp_entity_id : string) :
  InAcademiaSAMLBackend._choose_service_provider self (ts_scope transaction_session)
  = Ok sp →
  (SamlSp.parse_auth_response sp SAMLResponse binding w).1
  = Ok (name_id, identity, auth_time, idp_entity_id) →
  let w1 :=
    logged (EvLogInternal
              ("saml_response name_id=" +:+ Str.remove_char newline (str_NameID name_id))
              (Some transaction_id)) w in
  InAcademiaSAMLBackend.acs self SAMLResponse binding transaction_id transaction_session w
  = if negb (get_affiliation_function (ts_scope transaction_session) identity) then
      (Raise (NegativeResponse "The user does not have the correct affiliation."
                idp_entity_id), w1)
    else if str_in PERSISTENT_NAMEID (ts_scope transaction_session) then
      match InAcademiaSAMLBackend.get_name_id name_id identity with
      | Ok (Some _user_id) => (Ok (_user_id, true, identity, auth_time, idp_entity_id), w1)
      | Ok None =>
          (Raise (NegativeResponse "The users identity could not be provided."
                    idp_entity_id), w1)
      | Raise e => (Raise e, w1)
      end
    else
      (Ok (token_of (w_random w) (w_cursor w) 256, true, identity, auth_time,
           idp_entity_id),
       mkWorld (w_events w1) (w_random w) (256 + w_cursor w) (w_clock w)).
Proof.
  intros Hsp Hparse w1.
  destruct (SamlSp.parse_auth_response sp SAMLResponse binding w) as [r w'] eqn:Hrun.
  cbn [fst] in Hparse. subst r.
  pose proof (parse_auth_response_Ok _ _ _ _ _ _ Hrun) as ->.
  unfold InAcademiaSAMLBackend.acs. run_step. rewrite Hsp, Hrun. cbn [fst snd].
  destruct (get_affiliation_function (ts_scope transaction_session) identity);
    cbn [negb]; [|reflexivity].
  destruct (str_in PERSISTENT_NAMEID (ts_scope transaction_session)).
  - destruct (InAcademiaSAMLBackend.get_name_id name_id identity) as [[u|]|e]; reflexivity.
  - rewrite rndstr_spec. reflexivity.
Qed.

(** C4: an absent or empty response makes [parse_auth_response] fail
    with [AuthnFailure], and [acs] abort with the message for a user who
    was not authenticated; a response that is there never fails with
    [AuthnFailure], and [acs] aborts with the message for a response
    that could not be parsed. *)
Theorem missing_response_is_AuthnFailure (self : InAcademiaSAMLBackend.t)
    (sp : SamlSp.t) (SAMLResponse : option string) (binding transaction_id : string)
    (transaction_session : TransactionSession) (w : world) :
  InAcademiaSAMLBackend._choose_service_provider self (ts_scope transaction_session)
  = Ok sp →
  (SamlSp.truthy SAMLResponse = false →
     (SamlSp.parse_auth_response sp SAMLResponse binding w).1
     = Raise (AuthnFailure "You are not authorized!")
     ∧ (InAcademiaSAMLBackend.acs self SAMLResponse binding transaction_id
          transaction_session w).1
       = Raise (ClientError "User not authenticated at IdP." ""))
  ∧ (SamlSp.truthy SAMLResponse = true →
     ∀ e, (SamlSp.parse_auth_response sp SAMLResponse binding w).1 = Raise e →
          is_AuthnFailure e = false
          ∧ (InAcademiaSAMLBackend.acs self SAMLResponse binding transaction_id
               transaction_session w).1
            = Raise (ClientError "Could not parse Authentication Response from IdP." "")).
Proof.
  intros Hsp. split.
  - intros Hmissing.
    pose proof (parse_auth_response_missing sp SAMLResponse binding w Hmissing) as Hrun.
    split; [by rewrite Hrun|].
    by rewrite (acs_parse_failure self sp SAMLResponse binding transaction_id
                  transaction_session w _ _ Hsp Hrun).
  - intros Hpresent e He.
    destruct (parse_auth_response_present sp SAMLResponse binding w Hpresent) as [_ Hno].
    specialize (Hno e He). split; [done|].
    destruct (SamlSp.parse_auth_response sp SAMLResponse binding w) as [r w'] eqn:Hrun.
    cbn [fst] in He. subst r.
    rewrite (acs_parse_failure self sp SAMLResponse binding transaction_id
               transaction_session w _ _ Hsp Hrun).
    by rewrite Hno.
Qed.

(** C6: when the resolved attribute bag has no affiliation for the
    scope, [acs] ends with the negative response that carries the entity
    id of the asserting IdP; nothing but the log entry of the resolved
    name id has happened: no random token was drawn and no result is
    returned. *)
Theorem no_affiliation_is_negative_response (self : InAcademiaSAMLBackend.t)
    (sp : SamlSp.t) (SAMLResponse : option string) (binding transaction_id : string)
    (transaction_session : TransactionSession) (w : world)
    (name_id : NameID) (identity : Identity) (auth_time idp_entity_id : string) :
  InAcademiaSAMLBackend._choose_service_provider self (ts_scope transaction_session)
  = Ok sp →
  (SamlSp.parse_auth_response sp SAMLResponse binding w).1
  = Ok (name_id, identity, auth_time, idp_entity_id) →
  get_affiliation_function (ts_scope transaction_session) identity = false →
  InAcademiaSAMLBackend.acs self SAMLResponse binding transaction_id transaction_session w
  = (Raise (NegativeResponse "The user does not have the correct affiliation."
              idp_entity_id),
     logged (EvLogInternal
               ("saml_response name_id=" +:+ Str.remove_char newline (str_NameID name_id))
               (Some transaction_id)) w).
Proof.
  intros Hsp Hparse Haffiliation.
  rewrite (acs_after_parse self sp SAMLResponse binding transaction_id
             transaction_session w name_id identity auth_time idp_entity_id Hsp Hparse).
  by rewrite Haffiliation.
Qed.

End response.

Lemma missing_response_is_AuthnFailure_witness :
  (InAcademiaSAMLBackend.acs (env := Demo.collaborators) Demo.backend (Some "")
     BINDING_HTTP_POST "tx-1" (Demo.session ["transient"]) (Demo.world0 0)).1
  = Raise (ClientError "User not authenticated at IdP." "")
  ∧ (InAcademiaSAMLBackend.acs (env := Demo.collaborators) Demo.backend (Some "junk")
       BINDING_HTTP_POST "tx-1" (Demo.session ["transient"]) (Demo.world0 0)).1
    = Raise (ClientError "Could not parse Authentication Response from IdP." "").
Proof.
  split.
  - refine (proj2 (proj1 (missing_response_is_AuthnFailure (env := Demo.collaborators)
                            Demo.backend Demo.transient_sp (Some "") BINDING_HTTP_POST
                            "tx-1" (Demo.session ["transient"]) (Demo.world0 0) _) _)).
    + reflexivity.
    + reflexivity.
  - refine (proj2 (proj2 (missing_response_is_AuthnFailure (env := Demo.collaborators)
                            Demo.backend Demo.transient_sp (Some "junk") BINDING_HTTP_POST
                            "tx-1" (Demo.session ["transient"]) (Demo.world0 0) _) _
                     (LibraryError "not a SAML response") _)).
    + reflexivity.
    + reflexivity.
    + reflexivity.
Defined.

Lemma no_affiliation_is_negative_response_witness :
  (InAcademiaSAMLBackend.acs (env := Demo.collaborators) Demo.backend (Some "<visitor/>")
     BINDING_HTTP_POST "tx-1" (Demo.session ["transient"]) (Demo.world0 0)).1
  = Raise (NegativeResponse "The user does not have the correct affiliation." Demo.idp).
Proof.
  rewrite (no_affiliation_is_negative_response (env := Demo.collaborators)
             Demo.backend Demo.transient_sp (Some "<visitor/>") BINDING_HTTP_POST "tx-1"
             (Demo.session ["transient"]) (Demo.world0 0)
             (mkNameID Demo.transient_format "n-1") Demo.visitor
             "2015-01-01T00:00:00Z" Demo.idp).
  - reflexivity.
  - reflexivity.
  - reflexivity.
  - reflexivity.
Defined.

(** ** The random token *)

Lemma basech_length : String.length basech = 62.
Proof. reflexivity. Qed.

Lemma basech_find (i : nat) :
  i < 62 → Str.find (nth_char i basech) basech = Some i.
Proof.
  intros Hi.
  assert (Hall : forallb (λ i, bool_decide (Str.find (nth_char i basech) basech = Some i))
                   (seq 0 62) = true) by (vm_compute; reflexivity).
  rewrite forallb_forall in Hall. specialize (Hall i).
  rewrite bool_decide_eq_true in Hall. apply Hall, in_seq. lia.
Qed.


Lemma basech_inj (i j : nat) :
  i < 62 → j < 62 → nth_char i basech = nth_char j basech → i = j.
Proof.
  intros Hi Hj Heq. pose proof (basech_find i Hi) as Hfi.
  rewrite Heq, (basech_find j Hj) in Hfi. congruence.
Qed.



(** Two tokens are equal exactly when the draws behind them select the
    same positions of the alphabet. *)
Lemma token_of_inj (random1 random2 : nat → nat) (cursor1 cursor2 size : nat) :
  token_of random1 cursor1 size = token_of random2 cursor2 size
  ↔ ∀ i, i < size → random1 (cursor1 + i) mod 62 = random2 (cursor2 + i) mod 62.
Proof.
  revert cursor1 cursor2; induction size as [|size IH]; intros cursor1 cursor2.
  - split; [intros _ i Hi; lia | reflexivity].
  - cbn [token_of]. rewrite basech_length. split.
    + intros [= Hhead Htail] i Hi. pose proof (proj1 (IH _ _) Htail) as Hrest.
      destruct i as [|i].
      * rewrite !Nat.add_0_r. apply basech_inj; [apply Nat.mod_upper_bound; lia ..|done].
      * rewrite <- !Nat.add_succ_comm. apply Hrest. lia.
    + intros Hdraws. f_equal.
      * specialize (Hdraws 0 ltac:(lia)). rewrite !Nat.add_0_r in Hdraws. by rewrite Hdraws.
      * apply IH. intros i Hi. specialize (Hdraws (S i) ltac:(lia)).
        by rewrite <- !Nat.add_succ_comm in Hdraws.
Qed.

Section transient.
Context {env : Collaborators}.



End transient.


(** ** Events of a computation *)

Section events.
Context (P : event → Prop).









End events.


(** ** Forced authentication *)

Section forced_authentication.
Context {env : Collaborators}.









(** C8: when the federation-membership check fails, the
    discovery-return handler aborts with the message for an IdP outside
    the federation and leaves the world as it found it: no metadata
    lookup, no authentication request, no binding applied. The
    identifier [https://idp.example/sso?inedugain=false] fails the
    check. *)
Theorem non_member_aborts_before_request (self : InAcademiaSAMLBackend.t)
    (sp : SamlSp.t) (entity_id transaction_id : string)
    (transaction_session : TransactionSession) (w : world) :
  InAcademiaSAMLBackend._choose_service_provider self (ts_scope transaction_session)
  = Ok sp →
  InAcademiaSAMLBackend._is_in_edugain entity_id = Ok false →
  (∃ idp_entity_id,
     InAcademiaSAMLBackend._parse_idp_entity_id entity_id = Ok idp_entity_id
     ∧ InAcademiaSAMLBackend.disco self entity_id transaction_id transaction_session w
       = (Raise (ClientError
                   ("Non-edugain IdP '" +:+ idp_entity_id
                      +:+ "' returned from discovery server") ""), w))
  ∧ InAcademiaSAMLBackend._is_in_edugain "https://idp.example/sso?inedugain=false"
    = Ok false.
Proof.
  intros Hsp Hmember. split; [|vm_compute; reflexivity].
  assert (∃ parsed, urlparse.urlparse entity_id = Ok parsed) as [parsed Hparsed].
  { unfold InAcademiaSAMLBackend._is_in_edugain in Hmember.
    destruct (urlparse.urlparse entity_id); [eauto | discriminate]. }
  pose proof (parse_idp_entity_id_parsed entity_id parsed Hparsed) as Hid.
  eexists. split; [exact Hid|].
  unfold InAcademiaSAMLBackend.disco. run_step. by rewrite Hsp, Hid, Hmember.
Qed.

End forced_authentication.


Lemma non_member_aborts_before_request_witness :
  ∃ idp_entity_id,
    InAcademiaSAMLBackend._parse_idp_entity_id "https://idp.example/sso?inedugain=false"
    = Ok idp_entity_id
    ∧ InAcademiaSAMLBackend.disco (env := Demo.collaborators) Demo.backend
        "https://idp.example/sso?inedugain=false" "tx-1" (Demo.session ["persistent"])
        (Demo.world0 0)
      = (Raise (ClientError
                  ("Non-edugain IdP '" +:+ idp_entity_id
                     +:+ "' returned from discovery server") ""), Demo.world0 0).
Proof.
  exact (proj1 (non_member_aborts_before_request (env := Demo.collaborators)
                  Demo.backend Demo.persistent_sp
                  "https://idp.example/sso?inedugain=false" "tx-1"
                  (Demo.session ["persistent"]) (Demo.world0 0) eq_refl eq_refl)).
Defined.

(** For a member of the federation the same handler looks the IdP up,
    builds the request and applies the binding. *)
Example disco_member_demo :
  ∃ request,
    w_events (InAcademiaSAMLBackend.disco (env := Demo.collaborators) Demo.backend
                "https://idp.example/sso?inedugain=true" "tx-1"
                (Demo.session ["persistent"]) (Demo.world0 0)).2
    = [EvApplyBinding BINDING_HTTP_POST "<AuthnRequest ID=id-/>"
         "https://idp.example/sso/post" "tx-1";
       EvLogInternal "saml_authn_request <AuthnRequest ID=id-/>" (Some "tx-1");
       EvAuthnRequest request;
       EvMetadataService "https://idp.example/sso";
       EvLogTransactionIdp "tx-1" "client-1" "https://idp.example/sso"]
    ∧ force_authn request = "true"
    ∧ destination request = "https://idp.example/sso/post".
Proof. eexists. split; [vm_compute; reflexivity|]. split; reflexivity. Qed.

(** * Further properties of the code *)

(** ** The identifier functions on their own *)

(** X1: outside the persistent format the derivation never falls back
    from an attribute that is present: a present [eduPersonTargetedID]
    without a value raises [IndexError] whatever
    [eduPersonPrincipalName] holds, [IndexError] is the only exception,
    and a value that is returned is the first value of
    [eduPersonTargetedID], or, when that attribute is absent, of
    [eduPersonPrincipalName]. *)
Theorem get_name_id_never_falls_back (name_id : NameID) (identity : Identity) :
  nameid_format name_id ≠ NAMEID_FORMAT_PERSISTENT →
  (identity !! "eduPersonTargetedID" = Some [] →
     InAcademiaSAMLBackend.get_name_id name_id identity = Raise IndexError)
  ∧ (identity !! "eduPersonTargetedID" = None →
     identity !! "eduPersonPrincipalName" = Some [] →
     InAcademiaSAMLBackend.get_name_id name_id identity = Raise IndexError)
  ∧ (∀ e, InAcademiaSAMLBackend.get_name_id name_id identity = Raise e → e = IndexError)
  ∧ (∀ value,
       InAcademiaSAMLBackend.get_name_id name_id identity = Ok (Some value) →
       (∃ values, identity !! "eduPersonTargetedID" = Some (value :: values))
       ∨ (identity !! "eduPersonTargetedID" = None
          ∧ ∃ values, identity !! "eduPersonPrincipalName" = Some (value :: values))).
Proof.
  intros Hformat. apply String.eqb_neq in Hformat.
  unfold InAcademiaSAMLBackend.get_name_id. rewrite Hformat.
  split; [by intros ->|]. split; [by intros -> ->|].
  destruct (identity !! "eduPersonTargetedID") as [[|v vs]|];
    [|split; [discriminate | intros value [= <-]; eauto]|].
  - split; [by intros e [= <-] | discriminate].
  - destruct (identity !! "eduPersonPrincipalName") as [[|v vs]|].
    + split; [by intros e [= <-] | discriminate].
    + split; [discriminate | intros value [= <-]; eauto].
    + split; discriminate.
Qed.

Lemma get_name_id_never_falls_back_witness :
  InAcademiaSAMLBackend.get_name_id (mkNameID Demo.transient_format "n-1")
    (<["eduPersonTargetedID" := []]> {[ "eduPersonPrincipalName" := ["alice@uni.example"] ]})
  = Raise IndexError.
Proof.
  refine (proj1 (get_name_id_never_falls_back _ _ _) _).
  - discriminate.
  - reflexivity.
Defined.

(** [urlparse] raises nothing but the [ValueError] of an unmatched
    bracket. *)
Lemma urlparse_Raise (url : string) (e : exn) :
  urlparse.urlparse url = Raise e → e = ValueError "Invalid IPv6 URL".
Proof.
  assert (Hsplit : ∀ scheme u, urlparse.split_after_scheme scheme u = Raise e →
                               e = ValueError "Invalid IPv6 URL").
  { intros scheme u. unfold urlparse.split_after_scheme.
    intros Hrun. repeat (case_match; cbn [rbind] in *; simplify_eq); congruence. }
  unfold urlparse.urlparse.
  destruct (urlparse.urlsplit url) as [r|e'] eqn:Hurl.
  - cbn [rbind]. destruct r. repeat case_match; discriminate.
  - cbn [rbind]. intros [= ->]. unfold urlparse.urlsplit in Hurl.
    repeat case_match; by eapply Hsplit.
Qed.

(** X2: canonicalization and the membership check fail together: each
    raises exactly when the other does, with the same exception, and
    that is the [ValueError] of [urlparse] for an unmatched square
    bracket; neither fails on an identifier without square brackets. *)
Theorem entity_id_functions_fail_together (entity_id : string) :
  (∀ e, InAcademiaSAMLBackend._parse_idp_entity_id entity_id = Raise e
        ↔ InAcademiaSAMLBackend._is_in_edugain entity_id = Raise e)
  ∧ (∀ e, InAcademiaSAMLBackend._parse_idp_entity_id entity_id = Raise e →
          e = ValueError "Invalid IPv6 URL")
  ∧ (free "[" entity_id → free "]" entity_id →
     (∃ idp_entity_id,
        InAcademiaSAMLBackend._parse_idp_entity_id entity_id = Ok idp_entity_id)
     ∧ ∃ member, InAcademiaSAMLBackend._is_in_edugain entity_id = Ok member).
Proof.
  unfold InAcademiaSAMLBackend._parse_idp_entity_id, InAcademiaSAMLBackend._is_in_edugain.
  split; [|split].
  - intros e. destruct (urlparse.urlparse entity_id); cbn [rbind]; split; intros Hrun;
      first [discriminate Hrun | by injection Hrun as <-].
  - intros e. destruct (urlparse.urlparse entity_id) as [p|e'] eqn:Hparse; cbn [rbind];
      [discriminate|]. intros [= ->]. by eapply urlparse_Raise.
  - intros Hl Hr. destruct (urlparse_total entity_id Hl Hr) as [parsed ->].
    cbn [rbind]. eauto.
Qed.

Lemma entity_id_functions_fail_together_witness :
  (∃ idp_entity_id,
     InAcademiaSAMLBackend._parse_idp_entity_id "urn:mace:example.org:idp?x=1"
     = Ok idp_entity_id)
  ∧ ∃ member,
      InAcademiaSAMLBackend._is_in_edugain "urn:mace:example.org:idp?x=1" = Ok member.
Proof.
  apply (proj2 (proj2 (entity_id_functions_fail_together "urn:mace:example.org:idp?x=1")));
    reflexivity.
Defined.

(** X3: the canonical identifier never carries the membership tag: the
    membership check never reports a canonical identifier as outside
    the federation.  The check has to be made on the raw identifier. *)
Theorem canonical_entity_id_is_member (entity_id idp_entity_id : string) :
  InAcademiaSAMLBackend._parse_idp_entity_id entity_id = Ok idp_entity_id →
  InAcademiaSAMLBackend._is_in_edugain idp_entity_id ≠ Ok false.
Proof.
  intros Hcanonical Hmember.
  assert (∃ parsed, urlparse.urlparse entity_id = Ok parsed) as [parsed Hparsed].
  { unfold InAcademiaSAMLBackend._parse_idp_entity_id in Hcanonical.
    destruct (urlparse.urlparse entity_id); [eauto | discriminate]. }
  rewrite (parse_idp_entity_id_parsed entity_id parsed Hparsed) in Hcanonical.
  assert (idp_entity_id
          = urlparse.urlunparse
              (urlparse.mkParseResult (urlparse.scheme parsed) (urlparse.netloc parsed)
                 (urlparse.path parsed) (urlparse.params parsed) "" "")) as ->
    by congruence.
  clear Hcanonical.
  destruct (urlparse_Ok entity_id parsed Hparsed) as (Hsep & _ & _).
  destruct (Hsep "?"%char ltac:(by left)) as (? & ? & ? & ?).
  assert (∃ again, urlparse.urlparse
            (urlparse.urlunparse
               (urlparse.mkParseResult (urlparse.scheme parsed) (urlparse.netloc parsed)
                  (urlparse.path parsed) (urlparse.params parsed) "" "")) = Ok again)
    as [again Hagain].
  { unfold InAcademiaSAMLBackend._is_in_edugain in Hmember.
    destruct (urlparse.urlparse _); [eauto | discriminate]. }
  rewrite (is_in_edugain_parsed _ again Hagain) in Hmember.
  destruct (urlparse_Ok _ again Hagain) as (_ & _ & Hquery).
  rewrite Hquery in Hmember by (apply urlunparse_free; [by left|done..]).
  vm_compute in Hmember. congruence.
Qed.

Lemma canonical_entity_id_is_member_witness :
  InAcademiaSAMLBackend._is_in_edugain "https://idp.example/sso" ≠ Ok false.
Proof.
  exact (canonical_entity_id_is_member "https://idp.example/sso?inedugain=false#x"
           "https://idp.example/sso" eq_refl).
Defined.

(** X4: for an [http] or [https] identifier made of a host, a path, and
    possibly a query and a fragment, canonicalization is idempotent. *)
Theorem parse_idp_entity_id_idempotent (scheme host path rest : string) :
  scheme = "http" ∨ scheme = "https" →
  host ≠ "" →
  free "/" host → free "?" host → free "#" host → free "[" host → free "]" host →
  path = "" ∨ (∃ path', path = String "/" path') →
  free "?" path → free "#" path → free ";" path →
  ends_path rest →
  ∃ idp_entity_id,
    InAcademiaSAMLBackend._parse_idp_entity_id
      (scheme +:+ "://" +:+ host +:+ path +:+ rest) = Ok idp_entity_id
    ∧ InAcademiaSAMLBackend._parse_idp_entity_id idp_entity_id = Ok idp_entity_id.
Proof.
  intros Hscheme Hhost Hslash Hquery Hhash Hl Hr Hpath Hpq Hph Hps Hrest.
  eexists. split; [by apply parse_idp_entity_id_http|].
  pose proof (parse_idp_entity_id_http scheme host path "" Hscheme Hhost Hslash Hquery
                Hhash Hl Hr Hpath Hpq Hph Hps ltac:(by left)) as Hagain.
  by rewrite append_empty_r in Hagain.
Qed.

Lemma parse_idp_entity_id_idempotent_witness :
  ∃ idp_entity_id,
    InAcademiaSAMLBackend._parse_idp_entity_id
      ("https" +:+ "://" +:+ "idp.example" +:+ "/sso" +:+ "?inedugain=true#frag")
    = Ok idp_entity_id
    ∧ InAcademiaSAMLBackend._parse_idp_entity_id idp_entity_id = Ok idp_entity_id.
Proof.
  apply parse_idp_entity_id_idempotent; try reflexivity; try discriminate.
  - by right.
  - right. by exists "sso".
  - right. exists "?"%char, "inedugain=true#frag". split; [reflexivity | by left].
Defined.

(** ** Building and sending the authentication request *)

(** X5: [location_header] finds the value of the first [Location]
    header, and nothing exactly when no header has that name. *)
Theorem location_header_first (headers : list (string * string)) :
  (∀ value,
     SamlSp.location_header headers = Some value
     ↔ ∃ before after,
         headers = before ++ ("Location", value) :: after
         ∧ Forall (λ header, header.1 ≠ "Location") before)
  ∧ (SamlSp.location_header headers = None
     ↔ Forall (λ header, header.1 ≠ "Location") headers).
Proof.
  induction headers as [|[param value'] headers [IHsome IHnone]].
  - split.
    + intros value. split; [discriminate|]. intros (before & after & Heq & _).
      by destruct before.
    + split; [constructor | reflexivity].
  - cbn [SamlSp.location_header]. destruct (String.eqb_spec param "Location") as [->|Hne].
    + split.
      * intros value. split.
        -- intros [= <-]. exists [], headers. split; [reflexivity | constructor].
        -- intros (before & after & Heq & Hbefore). destruct before as [|[p v] before].
           ++ by injection Heq as <- _.
           ++ injection Heq as <- <- _. apply Forall_cons in Hbefore as [Hp _].
              by destruct Hp.
      * split; [discriminate|]. intros Hall. apply Forall_cons in Hall as [Hp _].
        by destruct Hp.
    + split.
      * intros value. rewrite IHsome. split.
        -- intros (before & after & -> & Hbefore).
           exists ((param, value') :: before), after. split; [reflexivity|].
           by constructor.
        -- intros (before & after & Heq & Hbefore). destruct before as [|[p v] before].
           ++ injection Heq as -> _ _. by destruct Hne.
           ++ injection Heq as <- <- ->. apply Forall_cons in Hbefore as [_ Hbefore].
              eauto.
      * rewrite IHnone. split.
        -- intros Hall. by constructor.
        -- intros Hall. by apply Forall_cons in Hall as [_ Hall].
Qed.

Lemma choose_binding_Some (destinations : Destinations) (binding : string) :
  SamlSp.choose_binding destinations = Some binding →
  (binding = BINDING_HTTP_POST ∨ binding = BINDING_HTTP_REDIRECT)
  ∧ is_Some (destinations !! binding).
Proof.
  unfold SamlSp.choose_binding. repeat case_decide; intros [= <-]; auto.
Qed.

Section request.
Context {env : Collaborators}.

(** [construct_authn_request], step by step. *)
Lemma construct_authn_request_run (self : SamlSp.t) (idp_entity_id : string)
    (mds : Metadata) (policy : NameIDPolicy) (acs_url acs_index : string) (w : world) :
  SamlSp.construct_authn_request self idp_entity_id mds policy acs_url acs_index w
  = match mds idp_entity_id "idpsso_descriptor" "single_sign_on_service" with
    | Raise e => (Raise e, logged (EvMetadataService idp_entity_id) w)
    | Ok None =>
        (Raise (ServiceErrorException ("IdP '" +:+ idp_entity_id +:+ "' not known in MDX")),
         logged (EvMetadataService idp_entity_id) w)
    | Ok (Some destinations) =>
        match SamlSp.choose_binding destinations with
        | None =>
            (Raise (ServiceErrorException
                      "IdP does not support http-post or http-redirect binding"),
             logged (EvMetadataService idp_entity_id) w)
        | Some binding =>
            match SamlSp.first_location destinations binding with
            | Raise e => (Raise e, logged (EvMetadataService idp_entity_id) w)
            | Ok location =>
                let request :=
                  mkAuthnRequest (sid (w_clock w)) "2.0" (instant (w_clock w))
                    (SamlSp.issuer self) policy
                    (if SamlSp.force_authn self then "true" else "false") location
                    (if Str.nonempty acs_url then Some acs_url else None)
                    (if Str.nonempty acs_url then Some (SamlSp.response_binding self)
                     else None)
                    (if Str.nonempty acs_index then Some acs_index else None) in
                (Ok (request, binding),
                 logged (EvAuthnRequest request) (logged (EvMetadataService idp_entity_id) w))
            end
        end
    end.
Proof.
  unfold SamlSp.construct_authn_request. run_step.
  destruct (mds _ _ _) as [[destinations|]|e]; try reflexivity.
  destruct (SamlSp.choose_binding destinations) as [binding|]; reflexivity.
Qed.

(** X6: a request that [construct_authn_request] returns is for
    HTTP-POST or HTTP-Redirect, goes to the first location the metadata
    lists for that binding, and carries version 2.0, the issuer of the
    service provider and the given name-id policy; with an assertion
    consumer URL it asks for the service provider's own response
    binding, whatever binding was chosen for sending, and without one it
    names neither; one metadata lookup and the request are all that was
    added to the log. *)
Theorem construct_authn_request_returns (self : SamlSp.t) (idp_entity_id : string)
    (mds : Metadata) (policy : NameIDPolicy) (acs_url acs_index : string)
    (w w' : world) (request : AuthnRequest) (binding : string) :
  SamlSp.construct_authn_request self idp_entity_id mds policy acs_url acs_index w
  = (Ok (request, binding), w') →
  (binding = BINDING_HTTP_POST ∨ binding = BINDING_HTTP_REDIRECT)
  ∧ (∃ destinations,
       mds idp_entity_id "idpsso_descriptor" "single_sign_on_service"
       = Ok (Some destinations)
       ∧ SamlSp.choose_binding destinations = Some binding
       ∧ SamlSp.first_location destinations binding = Ok (destination request))
  ∧ version request = "2.0"
  ∧ issuer request = SamlSp.issuer self
  ∧ name_id_policy request = policy
  ∧ assertion_consumer_service_url request
    = (if Str.nonempty acs_url then Some acs_url else None)
  ∧ protocol_binding request
    = (if Str.nonempty acs_url then Some (SamlSp.response_binding self) else None)
  ∧ assertion_consumer_service_index request
    = (if Str.nonempty acs_index then Some acs_index else None)
  ∧ w' = logged (EvAuthnRequest request) (logged (EvMetadataService idp_entity_id) w).
Proof.
  rewrite construct_authn_request_run.
  destruct (mds _ _ _) as [[destinations|]|e]; try discriminate.
  destruct (SamlSp.choose_binding destinations) as [chosen|] eqn:Hchoice;
    try discriminate.
  destruct (SamlSp.first_location destinations chosen) as [location|e] eqn:Hlocation;
    try discriminate.
  cbn zeta. intros [= <- <- <-].
  split; [by apply (choose_binding_Some destinations)|].
  split; [by exists destinations|]. by repeat split.
Qed.

End request.

Lemma construct_authn_request_returns_witness :
  match (SamlSp.construct_authn_request (env := Demo.collaborators) Demo.persistent_sp
           Demo.idp Demo.mdx (SamlSp.nameid_policy Demo.persistent_sp)
           (SamlSp.response_url Demo.persistent_sp) "" (Demo.world0 0)).1 with
  | Ok (request, binding) =>
      binding = BINDING_HTTP_POST
      ∧ protocol_binding request = Some BINDING_HTTP_POST
      ∧ assertion_consumer_service_index request = None
  | Raise _ => False
  end.
Proof.
  destruct (SamlSp.construct_authn_request (env := Demo.collaborators) Demo.persistent_sp
              Demo.idp Demo.mdx (SamlSp.nameid_policy Demo.persistent_sp)
              (SamlSp.response_url Demo.persistent_sp) "" (Demo.world0 0))
    as [[[request binding]|e] w'] eqn:Hrun; cbn [fst].
  - pose proof (construct_authn_request_returns (env := Demo.collaborators) _ _ _ _ _ _
                  _ _ _ _ Hrun) as (_ & _ & _ & _ & _ & _ & Hbinding & Hindex & _).
    split; [|by split]. unfold BINDING_HTTP_POST. vm_compute in Hrun. congruence.
  - vm_compute in Hrun. discriminate.
Defined.

Section sending.
Context {env : Collaborators}.

(** [SamlSp.redirect_to_auth] after [construct_authn_request]. *)
Lemma redirect_to_auth_run (self : SamlSp.t) (metadata : Metadata)
    (entity_id relay_state : string) (w : world) :
  SamlSp.redirect_to_auth self metadata entity_id relay_state w
  = match SamlSp.construct_authn_request self entity_id metadata
            (SamlSp.nameid_policy self) (SamlSp.response_url self) "" w with
    | (Raise e, w1) => (Raise e, w1)
    | (Ok (request, binding), w1) =>
        let msg_str :=
          match SamlSp.sign_func self with
          | Some sign => sign request
          | None => str_AuthnRequest request
          end in
        let ht_args := apply_binding binding msg_str (destination request) relay_state in
        let w2 :=
          logged (EvApplyBinding binding msg_str (destination request) relay_state)
            (logged (EvLogInternal
                       ("saml_authn_request "
                          +:+ Str.remove_char newline (str_AuthnRequest request))
                       (Some relay_state)) w1) in
        if String.eqb binding BINDING_HTTP_REDIRECT then
          match SamlSp.location_header (headers ht_args) with
          | Some value => (Ok (SeeOther value), w2)
          | None => (Raise (ServiceErrorException "Parameter error"), w2)
          end
        else (Ok (Response200 (Str.join (data ht_args)) (headers ht_args)), w2)
    end.
Proof.
  unfold SamlSp.redirect_to_auth. run_step.
  destruct (SamlSp.construct_authn_request _ _ _ _ _ _ w) as [[[request binding]|e] w1];
    [|reflexivity].
  cbn zeta. destruct (String.eqb binding BINDING_HTTP_REDIRECT); [|reflexivity].
  by destruct (SamlSp.location_header _).
Qed.

(** X7: when the metadata lists a location for the chosen binding,
    [redirect_to_auth] builds the request for that location with the
    service provider's name-id policy and response URL, logs it, and
    applies the binding once, to the signed message if a signing
    function is configured and to the plain one otherwise, with the
    relay state as given.  For HTTP-POST it answers with the form made
    of the binding's data; for HTTP-Redirect with a redirect to the
    first [Location] header, or with the [ServiceErrorException] for a
    parameter error when there is none. *)
Theorem redirect_to_auth_response (self : SamlSp.t) (metadata : Metadata)
    (entity_id relay_state : string) (destinations : Destinations)
    (binding location : string) (w : world) :
  metadata entity_id "idpsso_descriptor" "single_sign_on_service" = Ok (Some destinations) →
  SamlSp.choose_binding destinations = Some binding →
  SamlSp.first_location destinations binding = Ok location →
  ∃ request msg_str,
    destination request = location
    ∧ name_id_policy request = SamlSp.nameid_policy self
    ∧ assertion_consumer_service_url request
      = (if Str.nonempty (SamlSp.response_url self) then Some (SamlSp.response_url self)
         else None)
    ∧ msg_str = match SamlSp.sign_func self with
                | Some sign => sign request
                | None => str_AuthnRequest request
                end
    ∧ (SamlSp.redirect_to_auth self metadata entity_id relay_state w).2
      = logged (EvApplyBinding binding msg_str location relay_state)
          (logged (EvLogInternal
                     ("saml_authn_request "
                        +:+ Str.remove_char newline (str_AuthnRequest request))
                     (Some relay_state))
             (logged (EvAuthnRequest request) (logged (EvMetadataService entity_id) w)))
    ∧ (binding = BINDING_HTTP_POST →
       (SamlSp.redirect_to_auth self metadata entity_id relay_state w).1
       = Ok (Response200
               (Str.join (data (apply_binding binding msg_str location relay_state)))
               (headers (apply_binding binding msg_str location relay_state))))
    ∧ (binding = BINDING_HTTP_REDIRECT →
       (SamlSp.redirect_to_auth self metadata entity_id relay_state w).1
       = match SamlSp.location_header
                 (headers (apply_binding binding msg_str location relay_state)) with
         | Some value => Ok (SeeOther value)
         | None => Raise (ServiceErrorException "Parameter error")
         end).
Proof.
  intros Hmetadata Hchoice Hlocation.
  rewrite redirect_to_auth_run, construct_authn_request_run.
  rewrite Hmetadata, Hchoice, Hlocation. cbn zeta.
  exists (mkAuthnRequest (sid (w_clock w)) "2.0" (instant (w_clock w)) (SamlSp.issuer self)
            (SamlSp.nameid_policy self)
            (if SamlSp.force_authn self then "true" else "false") location
            (if Str.nonempty (SamlSp.response_url self) then Some (SamlSp.response_url self)
             else None)
            (if Str.nonempty (SamlSp.response_url self)
             then Some (SamlSp.response_binding self) else None)
            None).
  eexists. split; [reflexivity|]. split; [reflexivity|]. split; [reflexivity|].
  split; [reflexivity|]. cbn [destination].
  split; [by repeat case_match|]. split.
  - intros ->. reflexivity.
  - intros ->. rewrite String.eqb_refl.
    destruct (SamlSp.location_header _); reflexivity.
Qed.

(** X8: [redirect_to_auth] fails only when the request could not be
    constructed, with the exception and the world of the construction
    (no binding is applied), or when the binding is HTTP-Redirect and
    applying it gave no [Location] header. *)
Theorem redirect_to_auth_failure (self : SamlSp.t) (metadata : Metadata)
    (entity_id relay_state : string) (w w' : world) (e : exn) :
  SamlSp.redirect_to_auth self metadata entity_id relay_state w = (Raise e, w') →
  SamlSp.construct_authn_request self entity_id metadata (SamlSp.nameid_policy self)
    (SamlSp.response_url self) "" w = (Raise e, w')
  ∨ (e = ServiceErrorException "Parameter error"
     ∧ ∃ request w1,
         SamlSp.construct_authn_request self entity_id metadata
           (SamlSp.nameid_policy self) (SamlSp.response_url self) "" w
         = (Ok (request, BINDING_HTTP_REDIRECT), w1)
         ∧ SamlSp.location_header
             (headers (apply_binding BINDING_HTTP_REDIRECT
                         match SamlSp.sign_func self with
                         | Some sign => sign request
                         | None => str_AuthnRequest request
                         end (destination request) relay_state)) = None).
Proof.
  rewrite redirect_to_auth_run.
  destruct (SamlSp.construct_authn_request _ _ _ _ _ _ w) as [[[request binding]|e'] w1];
    [|intros [= <- <-]; by left].
  cbn zeta. destruct (String.eqb_spec binding BINDING_HTTP_REDIRECT) as [->|_];
    [|discriminate].
  destruct (SamlSp.location_header _) eqn:Hheader; [discriminate|].
  intros [= <- <-]. right. split; [reflexivity|]. eauto.
Qed.

End sending.

Lemma redirect_to_auth_response_witness :
  ∃ body,
    (SamlSp.redirect_to_auth (env := Demo.collaborators) Demo.transient_sp Demo.mdx
       Demo.idp "tx-1" (Demo.world0 0)).1
    = Ok (Response200 body [("Location", "https://idp.example/sso/post?RelayState=tx-1")]).
Proof.
  destruct (redirect_to_auth_response (env := Demo.collaborators) Demo.transient_sp
              Demo.mdx Demo.idp "tx-1" Demo.sso_services BINDING_HTTP_POST
              "https://idp.example/sso/post" (Demo.world0 0) eq_refl eq_refl eq_refl)
    as (request & msg_str & _ & _ & _ & _ & _ & Hpost & _).
  eexists. rewrite (Hpost eq_refl). reflexivity.
Defined.

(** An IdP that is not in the metadata: the construction fails, and so
    does [redirect_to_auth], with nothing but the lookup in the log. *)
Lemma redirect_to_auth_failure_witness :
  SamlSp.construct_authn_request (env := Demo.collaborators) Demo.transient_sp
    "https://other.example/idp" Demo.mdx (SamlSp.nameid_policy Demo.transient_sp)
    (SamlSp.response_url Demo.transient_sp) "" (Demo.world0 0)
  = (Raise (ServiceErrorException "IdP 'https://other.example/idp' not known in MDX"),
     logged (EvMetadataService "https://other.example/idp") (Demo.world0 0)).
Proof.
  destruct (redirect_to_auth_failure (env := Demo.collaborators) Demo.transient_sp
              Demo.mdx "https://other.example/idp" "tx-1" (Demo.world0 0)
              (logged (EvMetadataService "https://other.example/idp") (Demo.world0 0))
              (ServiceErrorException "IdP 'https://other.example/idp' not known in MDX")
              eq_refl) as [Hconstruct | [Hparameter _]].
  - exact Hconstruct.
  - discriminate Hparameter.
Defined.

(** ** The discovery-return handler *)

Lemma choose_service_provider_Raise (self : InAcademiaSAMLBackend.t)
    (scope : list string) (e : exn) :
  InAcademiaSAMLBackend._choose_service_provider self scope = Raise e →
  ∃ sp_key, e = KeyError sp_key ∧ InAcademiaSAMLBackend.SP self !! sp_key = None
            ∧ (sp_key = PERSISTENT_NAMEID ∨ sp_key = TRANSIENT_NAMEID).
Proof.
  unfold InAcademiaSAMLBackend._choose_service_provider.
  destruct (str_in PERSISTENT_NAMEID scope);
    destruct (InAcademiaSAMLBackend.SP self !! _) eqn:Hlookup; try discriminate;
    intros [= <-]; eauto.
Qed.

Lemma disco_except_spec (e : exn) :
  is_ServiceErrorException (disco_except e) = false
  ∧ is_ConnectionError (disco_except e) = false.
Proof. by destruct e. Qed.

Section discovery_return.
Context {env : Collaborators}.

(** [disco] for a member of the federation. *)
Lemma disco_run (self : InAcademiaSAMLBackend.t) (sp : SamlSp.t)
    (entity_id transaction_id idp_entity_id : string)
    (transaction_session : TransactionSession) (w : world) :
  InAcademiaSAMLBackend._choose_service_provider self (ts_scope transaction_session)
  = Ok sp →
  InAcademiaSAMLBackend._parse_idp_entity_id entity_id = Ok idp_entity_id →
  InAcademiaSAMLBackend._is_in_edugain entity_id = Ok true →
  InAcademiaSAMLBackend.disco self entity_id transaction_id transaction_session w
  = match SamlSp.redirect_to_auth sp (InAcademiaSAMLBackend.metadata self) idp_entity_id
            transaction_id
            (logged (EvLogTransactionIdp transaction_id (ts_client_id transaction_session)
                       idp_entity_id) w) with
    | (Ok response, w1) =>
        match response_to_cherrypy response with
        | Ok body => (Ok body, w1)
        | Raise e => (Raise (disco_except e), w1)
        end
    | (Raise e, w1) => (Raise (disco_except e), w1)
    end.
Proof.
  intros Hsp Hid Hmember. unfold InAcademiaSAMLBackend.disco. run_step.
  rewrite Hsp, Hid, Hmember. cbn [negb].
  fold (logged (EvLogTransactionIdp transaction_id (ts_client_id transaction_session)
                  idp_entity_id) w).
  destruct (SamlSp.redirect_to_auth _ _ _ _ _) as [[response|e] w1].
  - destruct (response_to_cherrypy response) as [body|e]; [reflexivity|].
    unfold disco_except. by repeat case_match.
  - unfold disco_except. by repeat case_match.
Qed.

(** X9: no [ServiceErrorException] (an [AuthnFailure] included) and no
    [ConnectionError] leaves [disco]: what the request building raises
    of these is turned into a client error. *)
Theorem disco_never_raises_service_error (self : InAcademiaSAMLBackend.t)
    (entity_id transaction_id : string) (transaction_session : TransactionSession)
    (w w' : world) (e : exn) :
  InAcademiaSAMLBackend.disco self entity_id transaction_id transaction_session w
  = (Raise e, w') →
  is_ServiceErrorException e = false ∧ is_ConnectionError e = false.
Proof.
  destruct (InAcademiaSAMLBackend._choose_service_provider self
              (ts_scope transaction_session)) as [sp|e0] eqn:Hsp.
  2:{ unfold InAcademiaSAMLBackend.disco. run_step. rewrite Hsp. intros [= <- _].
      apply choose_service_provider_Raise in Hsp as (sp_key & -> & _). done. }
  destruct (InAcademiaSAMLBackend._parse_idp_entity_id entity_id)
    as [idp_entity_id|e0] eqn:Hid.
  2:{ unfold InAcademiaSAMLBackend.disco. run_step. rewrite Hsp, Hid. intros [= <- _].
      unfold InAcademiaSAMLBackend._parse_idp_entity_id in Hid.
      destruct (urlparse.urlparse entity_id) eqn:Hparse; [discriminate|].
      cbn [rbind] in Hid. injection Hid as <-.
      by rewrite (urlparse_Raise _ _ Hparse). }
  destruct (InAcademiaSAMLBackend._is_in_edugain entity_id) as [[|]|e0] eqn:Hmember.
  - rewrite (disco_run self sp entity_id transaction_id idp_entity_id
               transaction_session w Hsp Hid Hmember).
    destruct (SamlSp.redirect_to_auth _ _ _ _ _) as [[response|e1] w1].
    + destruct (response_to_cherrypy response); [discriminate|].
      intros [= <- _]. apply disco_except_spec.
    + intros [= <- _]. apply disco_except_spec.
  - unfold InAcademiaSAMLBackend.disco. run_step. rewrite Hsp, Hid, Hmember.
    by intros [= <- _].
  - unfold InAcademiaSAMLBackend.disco. run_step. rewrite Hsp, Hid, Hmember.
    intros [= <- _].
    unfold InAcademiaSAMLBackend._is_in_edugain in Hmember.
    destruct (urlparse.urlparse entity_id) eqn:Hparse; [discriminate|].
    cbn [rbind] in Hmember. injection Hmember as <-.
    by rewrite (urlparse_Raise _ _ Hparse).
Qed.

(** X10: for a member of the federation whose request cannot be built,
    [disco] aborts with a client error after the lookup under the
    canonical identifier, and without building a request: an IdP that
    the metadata does not know and an IdP that offers neither binding
    give the error for a request that could not be created, a
    connection error of the metadata lookup the error for a metadata
    service that could not be contacted. *)
Theorem disco_request_failure_is_client_error (self : InAcademiaSAMLBackend.t)
    (sp : SamlSp.t) (entity_id transaction_id idp_entity_id : string)
    (transaction_session : TransactionSession) (w : world) :
  InAcademiaSAMLBackend._choose_service_provider self (ts_scope transaction_session)
  = Ok sp →
  InAcademiaSAMLBackend._parse_idp_entity_id entity_id = Ok idp_entity_id →
  InAcademiaSAMLBackend._is_in_edugain entity_id = Ok true →
  (InAcademiaSAMLBackend.metadata self idp_entity_id "idpsso_descriptor"
     "single_sign_on_service" = Ok None
   ∨ (∃ destinations,
        InAcademiaSAMLBackend.metadata self idp_entity_id "idpsso_descriptor"
          "single_sign_on_service" = Ok (Some destinations)
        ∧ destinations !! BINDING_HTTP_POST = None
        ∧ destinations !! BINDING_HTTP_REDIRECT = None) →
   InAcademiaSAMLBackend.disco self entity_id transaction_id transaction_session w
   = (Raise (ClientError "Could not create SAML authentication request."
               "Validation could not be completed."),
      logged (EvMetadataService idp_entity_id)
        (logged (EvLogTransactionIdp transaction_id (ts_client_id transaction_session)
                   idp_entity_id) w)))
  ∧ (InAcademiaSAMLBackend.metadata self idp_entity_id "idpsso_descriptor"
       "single_sign_on_service" = Raise ConnectionError →
     InAcademiaSAMLBackend.disco self entity_id transaction_id transaction_session w
     = (Raise (ClientError "Could not contact SAML MDQ."
                 "Validation could not be completed."),
        logged (EvMetadataService idp_entity_id)
          (logged (EvLogTransactionIdp transaction_id (ts_client_id transaction_session)
                     idp_entity_id) w))).
Proof.
  intros Hsp Hid Hmember.
  rewrite (disco_run self sp entity_id transaction_id idp_entity_id
             transaction_session w Hsp Hid Hmember).
  rewrite redirect_to_auth_run, construct_authn_request_run. split.
  - intros [-> | (destinations & -> & Hpost & Hredirect)]; [reflexivity|].
    by rewrite (choose_binding_none destinations Hpost Hredirect).
  - intros ->. reflexivity.
Qed.

End discovery_return.

Lemma disco_never_raises_service_error_witness :
  is_ServiceErrorException
    (ClientError "Could not create SAML authentication request."
       "Validation could not be completed.") = false
  ∧ is_ConnectionError
      (ClientError "Could not create SAML authentication request."
         "Validation could not be completed.") = false.
Proof.
  exact (disco_never_raises_service_error (env := Demo.collaborators) Demo.backend
           "https://other.example/idp" "tx-1" (Demo.session ["transient"]) (Demo.world0 0)
           (logged (EvMetadataService "https://other.example/idp")
              (logged (EvLogTransactionIdp "tx-1" "client-1" "https://other.example/idp")
                 (Demo.world0 0)))
           _ eq_refl).
Defined.

Lemma disco_request_failure_is_client_error_witness :
  InAcademiaSAMLBackend.disco (env := Demo.collaborators) Demo.backend
    "https://other.example/idp?inedugain=true" "tx-1" (Demo.session ["transient"])
    (Demo.world0 0)
  = (Raise (ClientError "Could not create SAML authentication request."
              "Validation could not be completed."),
     logged (EvMetadataService "https://other.example/idp")
       (logged (EvLogTransactionIdp "tx-1" "client-1" "https://other.example/idp")
          (Demo.world0 0))).
Proof.
  apply (proj1 (disco_request_failure_is_client_error (env := Demo.collaborators)
                  Demo.backend Demo.transient_sp "https://other.example/idp?inedugain=true"
                  "tx-1" "https://other.example/idp" (Demo.session ["transient"])
                  (Demo.world0 0) eq_refl eq_refl eq_refl)).
  left. reflexivity.
Defined.

Section discovery_success.
Context {env : Collaborators}.

(** X11: for a member of the federation whose metadata lists a
    location for HTTP-POST, [disco] logs the transaction, looks the IdP
    up, builds the request and applies the HTTP-POST binding, in this
    order and all under the canonical identifier; the request goes to
    that location, the relay state is the transaction id, and the
    answer is what [response_to_cherrypy] makes of the form. *)
Theorem disco_sends_request (self : InAcademiaSAMLBackend.t) (sp : SamlSp.t)
    (entity_id transaction_id idp_entity_id : string)
    (transaction_session : TransactionSession) (destinations : Destinations)
    (location : string) (w : world) :
  InAcademiaSAMLBackend._choose_service_provider self (ts_scope transaction_session)
  = Ok sp →
  InAcademiaSAMLBackend._parse_idp_entity_id entity_id = Ok idp_entity_id →
  InAcademiaSAMLBackend._is_in_edugain entity_id = Ok true →
  InAcademiaSAMLBackend.metadata self idp_entity_id "idpsso_descriptor"
    "single_sign_on_service" = Ok (Some destinations) →
  SamlSp.first_location destinations BINDING_HTTP_POST = Ok location →
  ∃ request msg_str,
    destination request = location
    ∧ msg_str = match SamlSp.sign_func sp with
                | Some sign => sign request
                | None => str_AuthnRequest request
                end
    ∧ w_events (InAcademiaSAMLBackend.disco self entity_id transaction_id
                  transaction_session w).2
      = [EvApplyBinding BINDING_HTTP_POST msg_str location transaction_id;
         EvLogInternal
           ("saml_authn_request " +:+ Str.remove_char newline (str_AuthnRequest request))
           (Some transaction_id);
         EvAuthnRequest request;
         EvMetadataService idp_entity_id;
         EvLogTransactionIdp transaction_id (ts_client_id transaction_session)
           idp_entity_id] ++ w_events w
    ∧ (InAcademiaSAMLBackend.disco self entity_id transaction_id transaction_session w).1
      = match response_to_cherrypy
                (Response200
                   (Str.join (data (apply_binding BINDING_HTTP_POST msg_str location
                                      transaction_id)))
                   (headers (apply_binding BINDING_HTTP_POST msg_str location
                               transaction_id))) with
        | Ok body => Ok body
        | Raise e => Raise (disco_except e)
        end.
Proof.
  intros Hsp Hid Hmember Hmetadata Hlocation.
  assert (Hchoice : SamlSp.choose_binding destinations = Some BINDING_HTTP_POST).
  { apply choose_binding_post. unfold SamlSp.first_location in Hlocation.
    destruct (destinations !! BINDING_HTTP_POST); [eauto | discriminate]. }
  rewrite (disco_run self sp entity_id transaction_id idp_entity_id
             transaction_session w Hsp Hid Hmember).
  rewrite redirect_to_auth_run, construct_authn_request_run.
  rewrite Hmetadata, Hchoice, Hlocation. cbn beta iota zeta.
  change (String.eqb BINDING_HTTP_POST BINDING_HTTP_REDIRECT) with false.
  cbn beta iota zeta.
  exists (mkAuthnRequest (sid (w_clock w)) "2.0" (instant (w_clock w)) (SamlSp.issuer sp)
            (SamlSp.nameid_policy sp)
            (if SamlSp.force_authn sp then "true" else "false") location
            (if Str.nonempty (SamlSp.response_url sp) then Some (SamlSp.response_url sp)
             else None)
            (if Str.nonempty (SamlSp.response_url sp)
             then Some (SamlSp.response_binding sp) else None)
            None).
  eexists. split; [reflexivity|]. split; [reflexivity|]. cbn [destination].
  destruct (response_to_cherrypy _) as [body|e]; split; reflexivity.
Qed.

End discovery_success.

Lemma disco_sends_request_witness :
  ∃ request msg_str,
    destination request = "https://idp.example/sso/post"
    ∧ w_events (InAcademiaSAMLBackend.disco (env := Demo.collaborators) Demo.backend
                  "https://idp.example/sso?inedugain=true#top" "tx-1"
                  (Demo.session ["persistent"]) (Demo.world0 0)).2
      = [EvApplyBinding BINDING_HTTP_POST msg_str "https://idp.example/sso/post" "tx-1";
         EvLogInternal
           ("saml_authn_request " +:+ Str.remove_char newline
                                        (str_AuthnRequest (Collaborators := Demo.collaborators)
                                           request))
           (Some "tx-1");
         EvAuthnRequest request;
         EvMetadataService "https://idp.example/sso";
         EvLogTransactionIdp "tx-1" "client-1" "https://idp.example/sso"].
Proof.
  destruct (disco_sends_request (env := Demo.collaborators) Demo.backend
              Demo.persistent_sp "https://idp.example/sso?inedugain=true#top" "tx-1"
              "https://idp.example/sso" (Demo.session ["persistent"]) Demo.sso_services
              "https://idp.example/sso/post" (Demo.world0 0)
              eq_refl eq_refl eq_refl eq_refl eq_refl)
    as (request & msg_str & Hdestination & _ & Hevents & _).
  exists request, msg_str. split; [exact Hdestination | exact Hevents].
Defined.

(** ** The assertion consumer *)

Section consumer.
Context {env : Collaborators}.

(** What a successful [acs] tells about the transaction. *)
Lemma acs_Ok_inv (self : InAcademiaSAMLBackend.t) (SAMLResponse : option string)
    (binding transaction_id : string) (transaction_session : TransactionSession)
    (w w' : world) (user_id : string) (affiliation : bool) (identity : Identity)
    (auth_time idp_entity_id : string) :
  InAcademiaSAMLBackend.acs self SAMLResponse binding transaction_id transaction_session w
  = (Ok (user_id, affiliation, identity, auth_time, idp_entity_id), w') →
  ∃ sp name_id,
    InAcademiaSAMLBackend._choose_service_provider self (ts_scope transaction_session)
    = Ok sp
    ∧ (SamlSp.parse_auth_response sp SAMLResponse binding w).1
      = Ok (name_id, identity, auth_time, idp_entity_id)
    ∧ affiliation = true
    ∧ get_affiliation_function (ts_scope transaction_session) identity = true
    ∧ (if str_in PERSISTENT_NAMEID (ts_scope transaction_session) then
         InAcademiaSAMLBackend.get_name_id name_id identity = Ok (Some user_id)
         ∧ w_cursor w' = w_cursor w
       else
         user_id = token_of (w_random w) (w_cursor w) 256
         ∧ w_cursor w' = 256 + w_cursor w)
    ∧ w_random w' = w_random w.
Proof.
  intros Hrun.
  destruct (InAcademiaSAMLBackend._choose_service_provider self
              (ts_scope transaction_session)) as [sp|e] eqn:Hsp.
  2:{ unfold InAcademiaSAMLBackend.acs in Hrun. run_step. by rewrite Hsp in Hrun. }
  destruct (SamlSp.parse_auth_response sp SAMLResponse binding w)
    as [[[[[name_id identity'] auth_time'] idp']|e] w1] eqn:Hparse.
  2:{ by rewrite (acs_parse_failure self sp SAMLResponse binding transaction_id
                    transaction_session w w1 e Hsp Hparse) in Hrun. }
  rewrite (acs_after_parse self sp SAMLResponse binding transaction_id
             transaction_session w name_id identity' auth_time' idp' Hsp) in Hrun
    by (by rewrite Hparse).
  exists sp, name_id.
  destruct (get_affiliation_function (ts_scope transaction_session) identity') eqn:Haff;
    cbn [negb] in Hrun; [|discriminate].
  destruct (str_in PERSISTENT_NAMEID (ts_scope transaction_session)).
  - destruct (InAcademiaSAMLBackend.get_name_id name_id identity') as [[u|]|e] eqn:Hname;
      try discriminate.
    injection Hrun as <- <- <- <- <- <-.
    split; [done|]. split; [by rewrite Hparse|]. by repeat split.
  - injection Hrun as <- <- <- <- <- <-.
    split; [done|]. split; [by rewrite Hparse|]. by repeat split.
Qed.

(** X12: [acs] returns a result only for a response that the library
    parsed and whose attributes have the affiliation of the scope: the
    attributes, the authentication instant and the IdP of the result
    are those of the parsed response, the affiliation is [True], and
    the identifier is that of [get_name_id] in a persistent scope and
    the random token otherwise. *)
Theorem acs_success_is_affiliated (self : InAcademiaSAMLBackend.t)
    (SAMLResponse : option string) (binding transaction_id : string)
    (transaction_session : TransactionSession) (w w' : world) (user_id : string)
    (affiliation : bool) (identity : Identity) (auth_time idp_entity_id : string) :
  InAcademiaSAMLBackend.acs self SAMLResponse binding transaction_id transaction_session w
  = (Ok (user_id, affiliation, identity, auth_time, idp_entity_id), w') →
  SamlSp.truthy SAMLResponse = true
  ∧ affiliation = true
  ∧ get_affiliation_function (ts_scope transaction_session) identity = true
  ∧ ∃ sp name_id,
      InAcademiaSAMLBackend._choose_service_provider self (ts_scope transaction_session)
      = Ok sp
      ∧ (SamlSp.parse_auth_response sp SAMLResponse binding w).1
        = Ok (name_id, identity, auth_time, idp_entity_id)
      ∧ (PERSISTENT_NAMEID ∈ ts_scope transaction_session →
         InAcademiaSAMLBackend.get_name_id name_id identity = Ok (Some user_id))
      ∧ (PERSISTENT_NAMEID ∉ ts_scope transaction_session →
         user_id = token_of (w_random w) (w_cursor w) 256).
Proof.
  intros Hrun.
  destruct (acs_Ok_inv _ _ _ _ _ _ _ _ _ _ _ _ Hrun)
    as (sp & name_id & Hsp & Hparse & -> & Haff & Hid & _).
  split.
  { destruct (SamlSp.truthy SAMLResponse) eqn:Htruthy; [done|].
    by rewrite (parse_auth_response_missing sp SAMLResponse binding w Htruthy) in Hparse. }
  split; [done|]. split; [done|]. exists sp, name_id. split; [done|]. split; [done|].
  split.
  - intros Hscope. apply str_in_spec in Hscope. rewrite Hscope in Hid. tauto.
  - intros Hscope. apply str_in_false in Hscope. rewrite Hscope in Hid. tauto.
Qed.

(** X13: [acs] raises nothing but a [KeyError] for a scope whose
    service provider is not registered, one of the two client errors of
    an abort, the negative response, and, in a persistent scope only,
    what [get_name_id] raises on the parsed name id and attributes, as
    it is.  What the parsing raises never leaves it. *)
Theorem acs_raises_only (self : InAcademiaSAMLBackend.t)
    (SAMLResponse : option string) (binding transaction_id : string)
    (transaction_session : TransactionSession) (w w' : world) (e : exn) :
  InAcademiaSAMLBackend.acs self SAMLResponse binding transaction_id transaction_session w
  = (Raise e, w') →
  (∃ sp_key, e = KeyError sp_key ∧ InAcademiaSAMLBackend.SP self !! sp_key = None)
  ∨ e = ClientError "User not authenticated at IdP." ""
  ∨ e = ClientError "Could not parse Authentication Response from IdP." ""
  ∨ (∃ message idp_entity_id, e = NegativeResponse message idp_entity_id)
  ∨ (PERSISTENT_NAMEID ∈ ts_scope transaction_session
     ∧ ∃ sp name_id identity auth_time idp_entity_id,
         InAcademiaSAMLBackend._choose_service_provider self
           (ts_scope transaction_session) = Ok sp
         ∧ (SamlSp.parse_auth_response sp SAMLResponse binding w).1
           = Ok (name_id, identity, auth_time, idp_entity_id)
         ∧ InAcademiaSAMLBackend.get_name_id name_id identity = Raise e).
Proof.
  intros Hrun.
  destruct (InAcademiaSAMLBackend._choose_service_provider self
              (ts_scope transaction_session)) as [sp|e0] eqn:Hsp.
  2:{ unfold InAcademiaSAMLBackend.acs in Hrun. run_step. rewrite Hsp in Hrun.
      injection Hrun as <- _.
      apply choose_service_provider_Raise in Hsp as (sp_key & -> & Hnone & _).
      left. eauto. }
  destruct (SamlSp.parse_auth_response sp SAMLResponse binding w)
    as [[[[[name_id identity] auth_time] idp_entity_id]|e0] w1] eqn:Hparse.
  2:{ rewrite (acs_parse_failure self sp SAMLResponse binding transaction_id
                 transaction_session w w1 e0 Hsp Hparse) in Hrun.
      injection Hrun as <- _. right. destruct (is_AuthnFailure e0); tauto. }
  rewrite (acs_after_parse self sp SAMLResponse binding transaction_id
             transaction_session w name_id identity auth_time idp_entity_id Hsp) in Hrun
    by (by rewrite Hparse).
  destruct (get_affiliation_function (ts_scope transaction_session) identity);
    cbn [negb] in Hrun.
  2:{ injection Hrun as <- _. right. right. right. left. eauto. }
  destruct (str_in PERSISTENT_NAMEID (ts_scope transaction_session)) eqn:Hscope;
    [|discriminate].
  apply str_in_spec in Hscope.
  destruct (InAcademiaSAMLBackend.get_name_id name_id identity) as [[u|]|e0] eqn:Hid;
    [discriminate| |].
  - injection Hrun as <- _. right. right. right. left. eauto.
  - injection Hrun as <- _. right. right. right. right. split; [done|].
    exists sp, name_id, identity, auth_time, idp_entity_id. by rewrite Hparse.
Qed.

(** X14: in a persistent scope, after a resolved response with the
    affiliation, [acs] draws nothing from the random source and hands
    out what [get_name_id] derives: its value as the identifier, a
    negative response when it derives none, and its [IndexError] as it
    is. *)
Theorem acs_persistent_scope (self : InAcademiaSAMLBackend.t) (sp : SamlSp.t)
    (SAMLResponse : option string) (binding transaction_id : string)
    (transaction_session : TransactionSession) (w : world)
    (name_id : NameID) (identity : Identity) (auth_time idp_entity_id : string) :
  InAcademiaSAMLBackend._choose_service_provider self (ts_scope transaction_session)
  = Ok sp →
  (SamlSp.parse_auth_response sp SAMLResponse binding w).1
  = Ok (name_id, identity, auth_time, idp_entity_id) →
  PERSISTENT_NAMEID ∈ ts_scope transaction_session →
  get_affiliation_function (ts_scope transaction_session) identity = true →
  (InAcademiaSAMLBackend.acs self SAMLResponse binding transaction_id
     transaction_session w).1
  = match InAcademiaSAMLBackend.get_name_id name_id identity with
    | Ok (Some user_id) => Ok (user_id, true, identity, auth_time, idp_entity_id)
    | Ok None =>
        Raise (NegativeResponse "The users identity could not be provided." idp_entity_id)
    | Raise e => Raise e
    end
  ∧ w_cursor (InAcademiaSAMLBackend.acs self SAMLResponse binding transaction_id
                transaction_session w).2 = w_cursor w.
Proof.
  intros Hsp Hparse Hscope Haff. apply str_in_spec in Hscope.
  rewrite (acs_after_parse self sp SAMLResponse binding transaction_id
             transaction_session w name_id identity auth_time idp_entity_id Hsp Hparse).
  rewrite Haff, Hscope. cbn [negb].
  by destruct (InAcademiaSAMLBackend.get_name_id name_id identity) as [[u|]|e].
Qed.

(** X15: two transactions of ephemeral scope that follow one another
    take their identifiers from consecutive, disjoint stretches of the
    random source: the first from the next 256 draws, the second from
    the 256 draws after them. *)
Theorem consecutive_transient_identifiers (self : InAcademiaSAMLBackend.t)
    (response1 response2 : option string) (binding1 binding2 id1 id2 : string)
    (session1 session2 : TransactionSession) (w w1 w2 : world)
    (user1 user2 : string) (affiliation1 affiliation2 : bool)
    (identity1 identity2 : Identity) (time1 time2 idp1 idp2 : string) :
  PERSISTENT_NAMEID ∉ ts_scope session1 →
  PERSISTENT_NAMEID ∉ ts_scope session2 →
  InAcademiaSAMLBackend.acs self response1 binding1 id1 session1 w
  = (Ok (user1, affiliation1, identity1, time1, idp1), w1) →
  InAcademiaSAMLBackend.acs self response2 binding2 id2 session2 w1
  = (Ok (user2, affiliation2, identity2, time2, idp2), w2) →
  user1 = token_of (w_random w) (w_cursor w) 256
  ∧ user2 = token_of (w_random w) (256 + w_cursor w) 256
  ∧ w_cursor w2 = 512 + w_cursor w
  ∧ (user1 = user2
     ↔ ∀ i, i < 256 →
            w_random w (w_cursor w + i) mod 62
            = w_random w (256 + w_cursor w + i) mod 62).
Proof.
  intros Hscope1 Hscope2 Hrun1 Hrun2.
  apply str_in_false in Hscope1, Hscope2.
  destruct (acs_Ok_inv _ _ _ _ _ _ _ _ _ _ _ _ Hrun1)
    as (sp1 & name1 & _ & _ & _ & _ & Hid1 & Hrandom1).
  destruct (acs_Ok_inv _ _ _ _ _ _ _ _ _ _ _ _ Hrun2)
    as (sp2 & name2 & _ & _ & _ & _ & Hid2 & _).
  rewrite Hscope1 in Hid1. rewrite Hscope2 in Hid2.
  destruct Hid1 as [Huser1 Hcursor1]. destruct Hid2 as [Huser2 Hcursor2].
  rewrite Hrandom1, Hcursor1 in Huser2. rewrite Hcursor1 in Hcursor2.
  split; [done|]. split; [done|]. split; [lia|].
  rewrite Huser1, Huser2. apply token_of_inj.
Qed.

End consumer.

Lemma acs_success_is_affiliated_witness :
  SamlSp.truthy (Some "<persistent/>") = true
  ∧ get_affiliation_function (Collaborators := Demo.collaborators)
      ["persistent"] Demo.student = true.
Proof.
  pose proof (acs_success_is_affiliated (env := Demo.collaborators) Demo.backend
                (Some "<persistent/>") BINDING_HTTP_POST "tx-1"
                (Demo.session ["persistent"]) (Demo.world0 0)
                (InAcademiaSAMLBackend.acs (env := Demo.collaborators) Demo.backend
                   (Some "<persistent/>") BINDING_HTTP_POST "tx-1"
                   (Demo.session ["persistent"]) (Demo.world0 0)).2
                "abc123" true Demo.student "2015-01-01T00:00:00Z" Demo.idp
                (injective_projections _ _ eq_refl eq_refl))
    as (Htruthy & _ & Haffiliation & _).
  exact (conj Htruthy Haffiliation).
Defined.

Lemma acs_raises_only_witness :
  (∃ sp_key, KeyError "transient" = KeyError sp_key
             ∧ (∅ : gmap string SamlSp.t) !! sp_key = None)
  ∨ KeyError "transient" = ClientError "User not authenticated at IdP." ""
  ∨ KeyError "transient"
    = ClientError "Could not parse Authentication Response from IdP." ""
  ∨ (∃ message idp_entity_id, KeyError "transient" = NegativeResponse message idp_entity_id)
  ∨ (PERSISTENT_NAMEID ∈ ["openid"]
     ∧ ∃ sp name_id identity auth_time idp_entity_id,
         InAcademiaSAMLBackend._choose_service_provider
           (InAcademiaSAMLBackend.mk Demo.mdx ∅) ["openid"] = Ok sp
         ∧ (SamlSp.parse_auth_response (env := Demo.collaborators) sp
              (Some "<transient/>") BINDING_HTTP_POST (Demo.world0 0)).1
           = Ok (name_id, identity, auth_time, idp_entity_id)
         ∧ InAcademiaSAMLBackend.get_name_id name_id identity
           = Raise (KeyError "transient")).
Proof.
  exact (acs_raises_only (env := Demo.collaborators)
           (InAcademiaSAMLBackend.mk Demo.mdx ∅) (Some "<transient/>") BINDING_HTTP_POST
           "tx-1" (Demo.session ["openid"]) (Demo.world0 0) (Demo.world0 0)
           (KeyError "transient") eq_refl).
Defined.

Lemma acs_persistent_scope_witness :
  (InAcademiaSAMLBackend.acs (env := Demo.collaborators) Demo.backend
     (Some "<persistent/>") BINDING_HTTP_POST "tx-1" (Demo.session ["persistent"])
     (Demo.world0 0)).1
  = Ok ("abc123", true, Demo.student, "2015-01-01T00:00:00Z", Demo.idp)
  ∧ w_cursor (InAcademiaSAMLBackend.acs (env := Demo.collaborators) Demo.backend
                (Some "<persistent/>") BINDING_HTTP_POST "tx-1"
                (Demo.session ["persistent"]) (Demo.world0 0)).2 = 0.
Proof.
  refine (acs_persistent_scope (env := Demo.collaborators) Demo.backend
            Demo.persistent_sp (Some "<persistent/>") BINDING_HTTP_POST "tx-1"
            (Demo.session ["persistent"]) (Demo.world0 0)
            (mkNameID NAMEID_FORMAT_PERSISTENT "abc123") Demo.student
            "2015-01-01T00:00:00Z" Demo.idp _ _ _ _).
  - reflexivity.
  - reflexivity.
  - apply list_elem_of_here.
  - reflexivity.
Defined.

Lemma consecutive_transient_identifiers_witness :
  w_cursor (InAcademiaSAMLBackend.acs (env := Demo.collaborators) Demo.backend
              (Some "<transient/>") BINDING_HTTP_POST "tx-2" (Demo.session ["transient"])
              (InAcademiaSAMLBackend.acs (env := Demo.collaborators) Demo.backend
                 (Some "<transient/>") BINDING_HTTP_POST "tx-1"
                 (Demo.session ["transient"]) (Demo.world0 1)).2).2 = 512
  ∧ token_of (λ _, 1) 0 256 = token_of (λ _, 1) 256 256.
Proof.
  set (w1 := (InAcademiaSAMLBackend.acs (env := Demo.collaborators) Demo.backend
                (Some "<transient/>") BINDING_HTTP_POST "tx-1"
                (Demo.session ["transient"]) (Demo.world0 1)).2).
  set (w2 := (InAcademiaSAMLBackend.acs (env := Demo.collaborators) Demo.backend
                (Some "<transient/>") BINDING_HTTP_POST "tx-2"
                (Demo.session ["transient"]) w1).2).
  assert (Hscope : PERSISTENT_NAMEID ∉ ts_scope (Demo.session ["transient"])).
  { apply str_in_false. reflexivity. }
  assert (Hrun1 : InAcademiaSAMLBackend.acs (env := Demo.collaborators) Demo.backend
                    (Some "<transient/>") BINDING_HTTP_POST "tx-1"
                    (Demo.session ["transient"]) (Demo.world0 1)
                  = (Ok (token_of (λ _, 1) 0 256, true, Demo.student,
                         "2015-01-01T00:00:00Z", Demo.idp), w1)).
  { vm_compute. reflexivity. }
  assert (Hrun2 : InAcademiaSAMLBackend.acs (env := Demo.collaborators) Demo.backend
                    (Some "<transient/>") BINDING_HTTP_POST "tx-2"
                    (Demo.session ["transient"]) w1
                  = (Ok (token_of (λ _, 1) 256 256, true, Demo.student,
                         "2015-01-01T00:00:00Z", Demo.idp), w2)).
  { vm_compute. reflexivity. }
  destruct (consecutive_transient_identifiers (env := Demo.collaborators) Demo.backend
              (Some "<transient/>") (Some "<transient/>") BINDING_HTTP_POST
              BINDING_HTTP_POST "tx-1" "tx-2" (Demo.session ["transient"])
              (Demo.session ["transient"]) (Demo.world0 1) w1 w2
              (token_of (λ _, 1) 0 256) (token_of (λ _, 1) 256 256) true true
              Demo.student Demo.student "2015-01-01T00:00:00Z" "2015-01-01T00:00:00Z"
              Demo.idp Demo.idp Hscope Hscope Hrun1 Hrun2)
    as (_ & _ & Hcursor & Hsame).
  split; [exact Hcursor|].
  apply Hsame. intros i _. reflexivity.
Defined.

(** ** The constructors *)

Lemma SamlSp_init_Ok (conf : SPConfig) (disco_srv : string) (force : bool)
    (sign_func : option (AuthnRequest → string)) (sp : SamlSp.t) :
  SamlSp.__init__ conf disco_srv force sign_func = Ok sp →
  ∃ acs_url acs_binding acs_rest format formats,
    endpoints conf !! "assertion_consumer_service"
    = Some ((acs_url, acs_binding) :: acs_rest)
    ∧ name_id_format conf = format :: formats
    ∧ sp = SamlSp.mk "IdpQuery" conf disco_srv force sign_func acs_binding acs_url
             (mkNameIDPolicy format "false") (SamlSp.mkBase conf true)
             (mkIssuer (entityid conf) NAMEID_FORMAT_ENTITY).
Proof.
  unfold SamlSp.__init__.
  destruct (endpoints conf !! "assertion_consumer_service") as [[|[url binding] rest]|];
    try discriminate.
  destruct (name_id_format conf) as [|format formats]; [discriminate|].
  intros [= <-]. by exists url, binding, rest, format, formats.
Qed.

(** X16: a service provider that its constructor built answers at the
    first configured assertion consumer endpoint, asks for the first
    configured name id format without creation of identifiers, accepts
    unsolicited responses, and issues requests under the entity id of
    its configuration. *)
Theorem SamlSp_init_fields (conf : SPConfig) (disco_srv : string) (force : bool)
    (sign_func : option (AuthnRequest → string)) (sp : SamlSp.t) :
  SamlSp.__init__ conf disco_srv force sign_func = Ok sp →
  head (default [] (endpoints conf !! "assertion_consumer_service"))
  = Some (SamlSp.response_url sp, SamlSp.response_binding sp)
  ∧ head (name_id_format conf) = Some (policy_format (SamlSp.nameid_policy sp))
  ∧ allow_create (SamlSp.nameid_policy sp) = "false"
  ∧ SamlSp.allow_unsolicited (SamlSp.sp sp) = true
  ∧ entityid (SamlSp.config (SamlSp.sp sp)) = entityid conf
  ∧ SamlSp.issuer sp = mkIssuer (entityid conf) NAMEID_FORMAT_ENTITY.
Proof.
  intros Hinit.
  apply SamlSp_init_Ok in Hinit
    as (url & binding & rest & format & formats & Hacs & Hformat & ->).
  rewrite Hacs, Hformat. by repeat split.
Qed.

Section construction.
Context {env : Collaborators}.

(** The registry after the loop: what was there and was not replaced,
    and one service provider for each configuration of the loop. *)
Lemma load_service_providers_Ok (config : list (string * SPConfig))
    (disco_url : string) (SP SP' : gmap string SamlSp.t) :
  InAcademiaSAMLBackend.load_service_providers config disco_url SP = Ok SP' →
  (∀ sp_key, is_Some (SP' !! sp_key) ↔ is_Some (SP !! sp_key) ∨ sp_key ∈ config.*1)
  ∧ (∀ sp_key sp, SP' !! sp_key = Some sp →
       SP !! sp_key = Some sp
       ∨ ∃ conf, (sp_key, conf) ∈ config
                 ∧ SamlSp.__init__ conf disco_url true None = Ok sp).
Proof.
  revert SP; induction config as [|[key conf] config IH]; intros SP.
  - intros [= <-]. split.
    + intros sp_key. cbn. rewrite elem_of_nil. tauto.
    + intros sp_key sp Hsp. by left.
  - cbn [InAcademiaSAMLBackend.load_service_providers].
    destruct (SamlSp.__init__ conf disco_url true None) as [new|e] eqn:Hnew;
      [|discriminate].
    cbn [rbind]. intros Hload. destruct (IH _ Hload) as [Hkeys Hvalues]. split.
    + intros sp_key. rewrite Hkeys, fmap_cons, elem_of_cons. cbn [fst].
      destruct (decide (key = sp_key)) as [->|Hne].
      * rewrite lookup_insert_eq. split; [intros _; right; by left | intros _; left; eauto].
      * rewrite lookup_insert_ne by done. split; intros [?|?]; eauto.
        destruct H as [->|?]; [done | eauto].
    + intros sp_key sp Hsp. destruct (Hvalues _ _ Hsp) as [Hold|(conf' & Hin & Hinit)].
      * destruct (decide (key = sp_key)) as [->|Hne].
        -- rewrite lookup_insert_eq in Hold. injection Hold as <-.
           right. exists conf. split; [by left | done].
        -- rewrite lookup_insert_ne in Hold by done. by left.
      * right. exists conf'. split; [by right | done].
Qed.

Lemma backend_init_Ok (base_url mdx_url disco_url : string)
    (self : InAcademiaSAMLBackend.t) :
  InAcademiaSAMLBackend.__init__ base_url mdx_url disco_url = Ok self →
  InAcademiaSAMLBackend.metadata self = MetaDataMDX mdx_url
  ∧ InAcademiaSAMLBackend.load_service_providers (load_sp_config base_url) disco_url ∅
    = Ok (InAcademiaSAMLBackend.SP self).
Proof.
  unfold InAcademiaSAMLBackend.__init__.
  destruct (InAcademiaSAMLBackend.load_service_providers _ _ _) as [SP|e];
    [|discriminate].
  by intros [= <-].
Qed.

(** X17: the backend that the constructor builds looks IdPs up at the
    given MDX address and registers a service provider under exactly the
    keys of the loaded configuration; each of them is built from a
    configuration loaded under its key, is unsigned, and sends users to
    the discovery service the backend was given. *)
Theorem backend_init_registry (base_url mdx_url disco_url : string)
    (self : InAcademiaSAMLBackend.t) :
  InAcademiaSAMLBackend.__init__ base_url mdx_url disco_url = Ok self →
  InAcademiaSAMLBackend.metadata self = MetaDataMDX mdx_url
  ∧ (∀ sp_key, is_Some (InAcademiaSAMLBackend.SP self !! sp_key)
               ↔ sp_key ∈ (load_sp_config base_url).*1)
  ∧ (∀ sp_key sp, InAcademiaSAMLBackend.SP self !! sp_key = Some sp →
       (sp_key, SamlSp.conf sp) ∈ load_sp_config base_url
       ∧ SamlSp.disco_srv sp = disco_url
       ∧ SamlSp.sign_func sp = None
       ∧ SamlSp.config (SamlSp.sp sp) = SamlSp.conf sp).
Proof.
  intros Hinit. apply backend_init_Ok in Hinit as [Hmetadata Hload].
  apply load_service_providers_Ok in Hload as [Hkeys Hvalues].
  split; [done|]. split.
  - intros sp_key. rewrite Hkeys, lookup_empty, is_Some_alt. tauto.
  - intros sp_key sp Hsp.
    destruct (Hvalues _ _ Hsp) as [Hold|(conf & Hin & Hnew)];
      [by rewrite lookup_empty in Hold|].
    apply SamlSp_init_Ok in Hnew as (? & ? & ? & ? & ? & _ & _ & ->). done.
Qed.

(** X18: the constructor builds a backend from complete configurations
    only: when it returns one, every loaded configuration, whatever its
    key, has a first assertion consumer endpoint and a first name id
    format. *)
Theorem backend_init_needs_complete_configs (base_url mdx_url disco_url : string)
    (self : InAcademiaSAMLBackend.t) :
  InAcademiaSAMLBackend.__init__ base_url mdx_url disco_url = Ok self →
  ∀ sp_key conf,
    (sp_key, conf) ∈ load_sp_config base_url →
    (∃ acs_url acs_binding acs_rest,
       endpoints conf !! "assertion_consumer_service"
       = Some ((acs_url, acs_binding) :: acs_rest))
    ∧ name_id_format conf ≠ [].
Proof.
  intros Hinit sp_key conf Hin. apply backend_init_Ok in Hinit as [_ Hload].
  destruct (SamlSp.__init__ conf disco_url true None) as [sp|e] eqn:Hsp.
  - apply SamlSp_init_Ok in Hsp as (url & binding & rest & format & formats
                                     & Hacs & Hformat & _).
    split; [eauto | by rewrite Hformat].
  - assert (Hraise : ∀ SP,
              ∃ e', InAcademiaSAMLBackend.load_service_providers
                      (load_sp_config base_url) disco_url SP = Raise e').
    { revert Hin. generalize (load_sp_config base_url). intros config Hin.
      induction config as [|[key conf'] config IH]; intros SP;
        [by apply elem_of_nil in Hin|].
      cbn [InAcademiaSAMLBackend.load_service_providers].
      destruct (SamlSp.__init__ conf' disco_url true None) as [new|e'] eqn:Hnew;
        cbn [rbind]; [|eauto].
      apply elem_of_cons in Hin as [[= -> ->]|Hin]; [congruence|]. by apply IH. }
    destruct (Hraise ∅) as [e' Hfail]. congruence.
Qed.

End construction.

Lemma SamlSp_init_fields_witness :
  head (default [] (endpoints (Demo.sp_conf "persistent" NAMEID_FORMAT_PERSISTENT)
                      !! "assertion_consumer_service"))
  = Some ("https://broker.example/acs/post", BINDING_HTTP_POST)
  ∧ head (name_id_format (Demo.sp_conf "persistent" NAMEID_FORMAT_PERSISTENT))
    = Some NAMEID_FORMAT_PERSISTENT.
Proof.
  pose proof (SamlSp_init_fields (Demo.sp_conf "persistent" NAMEID_FORMAT_PERSISTENT)
                "https://disco.example" true None Demo.persistent_sp eq_refl)
    as (Hacs & Hformat & _).
  exact (conj Hacs Hformat).
Defined.

Lemma backend_init_needs_complete_configs_witness :
  (∃ acs_url acs_binding acs_rest,
     endpoints (Demo.sp_conf TRANSIENT_NAMEID Demo.transient_format)
       !! "assertion_consumer_service"
     = Some ((acs_url, acs_binding) :: acs_rest))
  ∧ name_id_format (Demo.sp_conf TRANSIENT_NAMEID Demo.transient_format) ≠ [].
Proof.
  refine (backend_init_needs_complete_configs (env := Demo.collaborators)
            "https://broker.example" "https://mdx.example" "https://disco.example"
            Demo.backend eq_refl TRANSIENT_NAMEID
            (Demo.sp_conf TRANSIENT_NAMEID Demo.transient_format) _).
  apply list_elem_of_further, list_elem_of_here.
Defined.

Lemma backend_init_registry_witness :
  InAcademiaSAMLBackend.metadata Demo.backend = Demo.mdx
  ∧ (is_Some (InAcademiaSAMLBackend.SP Demo.backend !! "persistent")
     ↔ "persistent" ∈ [PERSISTENT_NAMEID; TRANSIENT_NAMEID]).
Proof.
  pose proof (backend_init_registry (env := Demo.collaborators)
                "https://broker.example" "https://mdx.example" "https://disco.example"
                Demo.backend eq_refl)
    as (Hmetadata & Hkeys & _).
  exact (conj Hmetadata (Hkeys "persistent")).
Defined.

(** ** The way to the discovery service *)

Section discovery_query.
Context {env : Collaborators} {discovery : DiscoveryCollaborators}.

Lemma disco_query_run (self : SamlSp.t) (state : string) (w : world) :
  SamlSp.disco_query self state w
  = match endpoints (SamlSp.conf self) !! "discovery_response" with
    | None => (Raise (KeyError "discovery_response"), w)
    | Some [] => (Raise IndexError, w)
    | Some ((ret, _) :: _) =>
        (Ok (create_discovery_service_request (SamlSp.disco_srv self)
               (entityid (SamlSp.config (SamlSp.sp self)))
               (ret +:+ "?state=" +:+ state)),
         logged (EvLogInternal ("Discovery service URL: " +:+ SamlSp.disco_srv self)
                   (Some state)) w)
    end.
Proof.
  unfold SamlSp.disco_query.
  destruct (endpoints (SamlSp.conf self) !! "discovery_response")
    as [[|[ret binding] rest]|]; reflexivity.
Qed.

(** X19: the redirect to the discovery service has status 303 and goes
    to the address that the library makes of the discovery server of
    the chosen service provider, its entity id, and its first
    discovery-response endpoint followed by [?state=] and the state as
    it is; one line is logged, and nothing else changes. *)
Theorem discovery_redirect (self : InAcademiaSAMLBackend.t) (sp : SamlSp.t)
    (state : string) (scope : list string) (ret binding : string)
    (rest : list (string * string)) (w : world) :
  InAcademiaSAMLBackend._choose_service_provider self scope = Ok sp →
  endpoints (SamlSp.conf sp) !! "discovery_response" = Some ((ret, binding) :: rest) →
  InAcademiaSAMLBackend.redirect_to_auth self state scope w
  = (HTTPRedirect
       (create_discovery_service_request (SamlSp.disco_srv sp)
          (entityid (SamlSp.config (SamlSp.sp sp))) (ret +:+ "?state=" +:+ state))
       303,
     logged (EvLogInternal ("Discovery service URL: " +:+ SamlSp.disco_srv sp)
               (Some state)) w).
Proof.
  intros Hsp Hdr. unfold InAcademiaSAMLBackend.redirect_to_auth.
  by rewrite Hsp, disco_query_run, Hdr.
Qed.

(** X20: when no redirect comes out, the world is as it was, and what
    is raised is the [KeyError] of a service provider that is not
    registered for the scope, the [KeyError] of a configuration without
    discovery-response endpoints, or the [IndexError] of an empty list
    of them. *)
Theorem discovery_redirect_failure (self : InAcademiaSAMLBackend.t)
    (state : string) (scope : list string) (w w' : world) (e : exn) :
  InAcademiaSAMLBackend.redirect_to_auth self state scope w = (Raised e, w') →
  w' = w
  ∧ ((∃ sp_key, e = KeyError sp_key
                ∧ InAcademiaSAMLBackend.SP self !! sp_key = None
                ∧ (sp_key = PERSISTENT_NAMEID ∨ sp_key = TRANSIENT_NAMEID))
     ∨ ∃ sp, InAcademiaSAMLBackend._choose_service_provider self scope = Ok sp
             ∧ ((e = KeyError "discovery_response"
                 ∧ endpoints (SamlSp.conf sp) !! "discovery_response" = None)
                ∨ (e = IndexError
                   ∧ endpoints (SamlSp.conf sp) !! "discovery_response" = Some []))).
Proof.
  unfold InAcademiaSAMLBackend.redirect_to_auth.
  destruct (InAcademiaSAMLBackend._choose_service_provider self scope)
    as [sp|e0] eqn:Hsp.
  - rewrite disco_query_run.
    destruct (endpoints (SamlSp.conf sp) !! "discovery_response")
      as [[|[ret binding] rest]|] eqn:Hdr; [|discriminate|].
    + intros [= <- <-]. split; [done|]. right. exists sp. split; [done|]. by right.
    + intros [= <- <-]. split; [done|]. right. exists sp. split; [done|]. by left.
  - intros [= <- <-]. split; [done|]. left.
    by apply choose_service_provider_Raise in Hsp.
Qed.

(** X21: a backend that the constructor built redirects to the
    discovery service it was given: the address is made of the
    constructor's [disco_url], the entity id of the configuration that
    was loaded under the key of the scope, and that configuration's
    first discovery-response endpoint with the state. *)
Theorem constructed_backend_redirects_to_disco_url
    (base_url mdx_url disco_url : string) (self : InAcademiaSAMLBackend.t)
    (state : string) (scope : list string) (w w' : world) (location : string)
    (status : nat) :
  InAcademiaSAMLBackend.__init__ base_url mdx_url disco_url = Ok self →
  InAcademiaSAMLBackend.redirect_to_auth self state scope w
  = (HTTPRedirect location status, w') →
  status = 303
  ∧ w' = logged (EvLogInternal ("Discovery service URL: " +:+ disco_url) (Some state)) w
  ∧ ∃ conf ret binding rest,
      (if str_in PERSISTENT_NAMEID scope then PERSISTENT_NAMEID else TRANSIENT_NAMEID,
       conf) ∈ load_sp_config base_url
      ∧ endpoints conf !! "discovery_response" = Some ((ret, binding) :: rest)
      ∧ location = create_discovery_service_request disco_url (entityid conf)
                     (ret +:+ "?state=" +:+ state).
Proof.
  intros Hinit. apply backend_init_Ok in Hinit as [_ Hload].
  apply load_service_providers_Ok in Hload as [_ Hvalues].
  unfold InAcademiaSAMLBackend.redirect_to_auth,
    InAcademiaSAMLBackend._choose_service_provider.
  destruct (InAcademiaSAMLBackend.SP self !! _) as [sp|] eqn:Hsp; [|discriminate].
  destruct (Hvalues _ _ Hsp) as [Hold|(conf & Hin & Hnew)];
    [by rewrite lookup_empty in Hold|].
  apply SamlSp_init_Ok in Hnew as (? & ? & ? & ? & ? & _ & _ & ->).
  rewrite disco_query_run. cbn [SamlSp.conf SamlSp.disco_srv SamlSp.sp SamlSp.config].
  destruct (endpoints conf !! "discovery_response") as [[|[ret binding] rest]|] eqn:Hdr;
    try discriminate.
  intros [= <- <- <-]. split; [done|]. split; [done|].
  by exists conf, ret, binding, rest.
Qed.

End discovery_query.

Lemma discovery_redirect_witness :
  InAcademiaSAMLBackend.redirect_to_auth (discovery := Demo.discovery) Demo.backend
    "s1" ["openid"; "persistent"] (Demo.world0 0)
  = (HTTPRedirect
       ("https://disco.example?entityID=https://broker.example/sp/persistent"
        +:+ "&return=https://broker.example/disco?state=s1") 303,
     logged (EvLogInternal "Discovery service URL: https://disco.example" (Some "s1"))
       (Demo.world0 0)).
Proof.
  exact (discovery_redirect (discovery := Demo.discovery) Demo.backend
           Demo.persistent_sp "s1" ["openid"; "persistent"]
           "https://broker.example/disco" "" [] (Demo.world0 0) eq_refl eq_refl).
Defined.

Lemma discovery_redirect_failure_witness :
  Demo.world0 0 = Demo.world0 0
  ∧ ((∃ sp_key, KeyError "transient" = KeyError sp_key
                ∧ (∅ : gmap string SamlSp.t) !! sp_key = None
                ∧ (sp_key = PERSISTENT_NAMEID ∨ sp_key = TRANSIENT_NAMEID))
     ∨ ∃ sp, InAcademiaSAMLBackend._choose_service_provider
               (InAcademiaSAMLBackend.mk Demo.mdx ∅) ["openid"] = Ok sp
             ∧ ((KeyError "transient" = KeyError "discovery_response"
                 ∧ endpoints (SamlSp.conf sp) !! "discovery_response" = None)
                ∨ (KeyError "transient" = IndexError
                   ∧ endpoints (SamlSp.conf sp) !! "discovery_response" = Some []))).
Proof.
  exact (discovery_redirect_failure (discovery := Demo.discovery)
           (InAcademiaSAMLBackend.mk Demo.mdx ∅) "s1" ["openid"] (Demo.world0 0)
           (Demo.world0 0) (KeyError "transient") eq_refl).
Defined.

Lemma constructed_backend_redirects_to_disco_url_witness :
  ∃ conf ret binding rest,
    ("transient", conf) ∈ load_sp_config (Collaborators := Demo.collaborators)
                            "https://broker.example"
    ∧ endpoints conf !! "discovery_response" = Some ((ret, binding) :: rest)
    ∧ ("https://disco.example?entityID=https://broker.example/sp/transient"
       +:+ "&return=https://broker.example/disco?state=s1")
      = create_discovery_service_request (DiscoveryCollaborators := Demo.discovery)
          "https://disco.example" (entityid conf) (ret +:+ "?state=" +:+ "s1").
Proof.
  exact (proj2 (proj2 (constructed_backend_redirects_to_disco_url
                         (env := Demo.collaborators) (discovery := Demo.discovery)
                         "https://broker.example" "https://mdx.example"
                         "https://disco.example" Demo.backend "s1" ["openid"]
                         (Demo.world0 0)
                         (logged (EvLogInternal
                                    "Discovery service URL: https://disco.example"
                                    (Some "s1")) (Demo.world0 0))
                         ("https://disco.example?entityID=https://broker.example/sp/transient"
                          +:+ "&return=https://broker.example/disco?state=s1")
                         303 eq_refl eq_refl))).
Defined.
